(** * The geofence store service of [server/server.py]

    A shallow embedding of the two request handlers of the service,
    [create_geofence] (POST /api/geofence) and [get_geofences]
    (GET /api/geofences), with the parts of the Python runtime they go
    through: [dict.get], [json.dumps], the parameter binding of [sqlite3]
    and the [fences] table.  The reader [json.loads] is embedded next to the
    writer so that the text stored in the [coordinates] column can be read
    back. *)

From Stdlib Require Import ZArith List String Ascii Bool Lia.
From Stdlib Require Import Floats.SpecFloat.
Import ListNotations.

Set Warnings "-register-all".
Local Open Scope string_scope.
Local Open Scope Z_scope.

(** ** Python values

    [request.get_json()] yields [None], [bool], [int], [float], [str],
    [list] and [dict] objects.  A [str] is a Rocq string (code points below
    256), an [int] is unbounded, a [float] is an IEEE 754 binary64 value
    and a [dict] keeps its items in insertion order.

    A [str] with a code point of 256 or more, and so a [str] with a lone
    surrogate, is not a value of [json]: what is stated below of every
    value is stated of the values whose strings, keys included, hold code
    points below 256 only. *)

Inductive json : Type :=
| JNull
| JBool (b : bool)
| JInt (z : Z)
| JFloat (f : spec_float)
| JString (s : string)
| JArray (items : list json)
| JObject (members : list (string * json)).

(** A well-formed binary64 value. *)
Definition is_float (f : spec_float) : bool := valid_binary 53 1024 f.

Definition float_eqb (x y : spec_float) : bool :=
  match x, y with
  | S754_zero s, S754_zero t => Bool.eqb s t
  | S754_infinity s, S754_infinity t => Bool.eqb s t
  | S754_nan, S754_nan => true
  | S754_finite s m e, S754_finite t n f =>
      Bool.eqb s t && Pos.eqb m n && Z.eqb e f
  | _, _ => false
  end.

(** ** Decimal digits *)

Definition is_digit (c : ascii) : bool :=
  let n := nat_of_ascii c in (48 <=? n)%nat && (n <=? 57)%nat.

Definition digit_of_ascii (c : ascii) : Z := Z.of_nat (nat_of_ascii c) - 48.

Definition ascii_of_digit (d : Z) : ascii := ascii_of_nat (Z.to_nat (48 + d)).

(** The value of a run of decimal digits, most significant first. *)
Fixpoint digits_value (acc : Z) (s : string) : Z :=
  match s with
  | EmptyString => acc
  | String c r => digits_value (10 * acc + digit_of_ascii c) r
  end.

Fixpoint digits_of_aux (fuel : nat) (n : Z) (acc : string) : string :=
  match fuel with
  | O => acc
  | S fuel' =>
      let acc' := String (ascii_of_digit (n mod 10)) acc in
      if n <? 10 then acc' else digits_of_aux fuel' (n / 10) acc'
  end.

(** The decimal digits of a natural number, as [int.__repr__] writes
    them. *)
Definition digits_of (n : Z) : string :=
  digits_of_aux (S (Z.to_nat (Z.log2 n))) n EmptyString.

Definition int_repr (z : Z) : string :=
  if z <? 0 then String "-" (digits_of (- z)) else digits_of z.

Definition zlength (s : string) : Z := Z.of_nat (String.length s).

Fixpoint zeros (n : nat) : string :=
  match n with
  | O => EmptyString
  | S n' => String "0" (zeros n')
  end.

(** The longest prefix of digits of [s], and what follows it. *)
Fixpoint span_digits (s : string) : string * string :=
  match s with
  | EmptyString => (EmptyString, EmptyString)
  | String c r =>
      if is_digit c
      then let '(ds, rest) := span_digits r in (String c ds, rest)
      else (EmptyString, s)
  end.

(** [b ^ k] for [k >= 0], and [1] below: the numerator and the denominator
    of a scaling by [b ^ k] are [up b k] and [up b (- k)]. *)
Definition up (b k : Z) : Z := b ^ Z.max 0 k.

(** ** [float(text)]: the binary64 value nearest to a decimal *)

(** The integer [F] with [2 ^ F <= n / d < 2 ^ (F + 1)], for positive [n]
    and [d]. *)
Definition floor_log2 (n d : Z) : Z :=
  let l := Z.log2 n - Z.log2 d in
  if d * up 2 l <=? n * up 2 (- l) then l else l - 1.

(** The integer nearest to [num / den], the even one of the two when
    [num / den] is half way. *)
Definition round_half_even (num den : Z) : Z :=
  let q := num / den in
  match 2 * (num mod den) ?= den with
  | Lt => q
  | Gt => q + 1
  | Eq => if Z.even q then q else q + 1
  end.

(** [round_ratio s n d] is the binary64 value nearest to the positive
    rational [n / d], ties going to the even mantissa, with sign [s]; too
    large a value overflows to an infinity and too small a one rounds to
    zero. *)
Definition round_ratio (s : bool) (n d : Z) : spec_float :=
  let E := Z.max (floor_log2 n d - 52) (-1074) in
  let q := round_half_even (n * up 2 (- E)) (d * up 2 E) in
  let '(m, e) := if q =? 2 ^ 53 then (2 ^ 52, E + 1) else (q, E) in
  match m with
  | Z.pos p => if 971 <? e then S754_infinity s else S754_finite s p e
  | _ => S754_zero s
  end.

(** The value read from the digits [D] scaled by [10 ^ k]. *)
Definition float_of_decimal (s : bool) (D k : Z) : spec_float :=
  if D <=? 0 then S754_zero s
  else round_ratio s (D * up 10 k) (up 10 (- k)).

(** ** [float.__repr__]: the shortest decimal that reads back *)

Fixpoint ndigits_aux (fuel : nat) (n : Z) : Z :=
  match fuel with
  | O => 0
  | S fuel' => if n <? 10 then 1 else 1 + ndigits_aux fuel' (n / 10)
  end.

(** The number of decimal digits of [n >= 1]. *)
Definition ndigits (n : Z) : Z := ndigits_aux (S (Z.to_nat (Z.log2 n))) n.

(** The position of the decimal point of [n / d > 0]:
    [10 ^ (decpt - 1) <= n / d < 10 ^ decpt]. *)
Definition decpt_of (n d : Z) : Z :=
  if d <=? n then ndigits (n / d) else 1 - ndigits ((d - 1) / n).

(** [m * 2 ^ e] as a ratio of two positive integers. *)
Definition ratio_of (m : positive) (e : Z) : Z * Z :=
  (Z.pos m * up 2 e, up 2 (- e)).

(** The decimals with [p] digits around [n / d]: the scale [q], the
    digits [lo] of the one below, with
    [lo * 10 ^ q <= n / d < (lo + 1) * 10 ^ q], and the digits of the
    nearest one. *)
Definition decimals_around (n d p : Z) : Z * Z * Z :=
  let q := decpt_of n d - p in
  let num := n * up 10 (- q) in
  let den := d * up 10 q in
  (q, num / den, round_half_even num den).

Definition reads_back (m : positive) (e : Z) (c q : Z) : bool :=
  float_eqb (float_of_decimal false c q) (S754_finite false m e).

(** The decimal with [p] digits that reads back as [m * 2 ^ e], the nearer
    one when both neighbours do. *)
Definition candidate (m : positive) (e : Z) (p : Z) : option (Z * Z) :=
  let '(n, d) := ratio_of m e in
  let '(q, lo, near) := decimals_around n d p in
  let far := 2 * lo + 1 - near in
  if reads_back m e near q then Some (near, q)
  else if reads_back m e far q then Some (far, q)
  else None.

(** The nearest decimal with 17 digits. *)
Definition nearest17 (m : positive) (e : Z) : Z * Z :=
  let '(n, d) := ratio_of m e in
  let '(q, _, near) := decimals_around n d 17 in
  (near, q).

Fixpoint shortest_from (m : positive) (e : Z) (p : Z) (fuel : nat)
  : Z * Z :=
  match fuel with
  | O => nearest17 m e
  | S fuel' =>
      match candidate m e p with
      | Some c => c
      | None => shortest_from m e (p + 1) fuel'
      end
  end.

(** The digits of the shortest decimal [c * 10 ^ q] that reads back as
    [m * 2 ^ e]: the decimals of 1 to 16 digits are tried in turn, and the
    nearest one of 17 digits is taken when none of them does. *)
Definition shortest_decimal (m : positive) (e : Z) : Z * Z :=
  shortest_from m e 1 16.

(** Trailing zeros are dropped from the digit string. *)
Fixpoint strip_trailing_zeros (s : string) : string :=
  match s with
  | EmptyString => EmptyString
  | String c r =>
      match strip_trailing_zeros r with
      | EmptyString =>
          if Ascii.eqb c "0" then EmptyString else String c EmptyString
      | r' => String c r'
      end
  end.

Fixpoint take (n : nat) (s : string) : string :=
  match n, s with
  | S n', String c r => String c (take n' r)
  | _, _ => EmptyString
  end.

Fixpoint drop (n : nat) (s : string) : string :=
  match n, s with
  | S n', String c r => drop n' r
  | _, _ => s
  end.

(** The exponent of the 'r' format: a sign and at least two digits. *)
Definition exp_repr (x : Z) : string :=
  let a := Z.abs x in
  String (if x <? 0 then "-"%char else "+"%char)
    (if a <? 10 then String "0" (digits_of a) else digits_of a).

(** The layout of [repr]: the digits [ds] stand for [0.ds * 10 ^ decpt];
    the exponent form is used when [decpt <= -4] or [decpt > 16], and
    [.0] is added to a fixed form without fraction. *)
Definition format_repr (ds : string) (decpt : Z) : string :=
  if (decpt <=? -4) || (16 <? decpt) then
    match ds with
    | EmptyString => EmptyString
    | String c EmptyString => String c ("e" ++ exp_repr (decpt - 1))
    | String c r => String c ("." ++ r ++ "e" ++ exp_repr (decpt - 1))
    end
  else if decpt <=? 0 then "0." ++ zeros (Z.to_nat (- decpt)) ++ ds
  else if zlength ds <=? decpt
  then ds ++ zeros (Z.to_nat (decpt - zlength ds)) ++ ".0"
  else take (Z.to_nat decpt) ds ++ "." ++ drop (Z.to_nat decpt) ds.

Definition float_repr (x : spec_float) : string :=
  match x with
  | S754_nan => "nan"
  | S754_infinity s => if s then "-inf" else "inf"
  | S754_zero s => if s then "-0.0" else "0.0"
  | S754_finite s m e =>
      let '(c, q) := shortest_decimal m e in
      let all := digits_of c in
      (if s then "-" else "")
        ++ format_repr (strip_trailing_zeros all) (q + zlength all)
  end.

(** ** [json.dumps]

    The encoder with its default settings: [ensure_ascii], the item
    separator [", "], the key separator [": "], and [allow_nan].  The
    recursion limit of the interpreter and its limit on the number of
    digits of an [int] are not modelled. *)

Definition quote : ascii := "034"%char.
Definition backslash : ascii := "092"%char.

Definition hex_digit (n : nat) : ascii :=
  if (n <? 10)%nat then ascii_of_nat (48 + n) else ascii_of_nat (87 + n).

(** The replacement of one character by [py_encode_basestring_ascii]:
    the short escapes, [\u00XX] for the other characters outside of
    [' '..'~'], and the character itself otherwise.  A character is below
    256 here: the escapes of the higher code points, and the surrogate
    pairs of those above 65535, are outside of the model. *)
Definition escape_char (c : ascii) : string :=
  let n := nat_of_ascii c in
  if (n =? 34)%nat then String backslash (String quote EmptyString)
  else if (n =? 92)%nat then String backslash (String backslash EmptyString)
  else if (n =? 8)%nat then String backslash "b"
  else if (n =? 12)%nat then String backslash "f"
  else if (n =? 10)%nat then String backslash "n"
  else if (n =? 13)%nat then String backslash "r"
  else if (n =? 9)%nat then String backslash "t"
  else if (32 <=? n)%nat && (n <=? 126)%nat then String c EmptyString
  else String backslash
         ("u00" ++ String (hex_digit (n / 16))
                     (String (hex_digit (n mod 16)) EmptyString)).

Fixpoint escape_string (s : string) : string :=
  match s with
  | EmptyString => EmptyString
  | String c r => escape_char c ++ escape_string r
  end.

Definition encode_basestring_ascii (s : string) : string :=
  String quote (escape_string s ++ String quote EmptyString).

(** [floatstr] of the encoder. *)
Definition floatstr (f : spec_float) : string :=
  match f with
  | S754_nan => "NaN"
  | S754_infinity s => if s then "-Infinity" else "Infinity"
  | _ => float_repr f
  end.

Fixpoint join (sep : string) (parts : list string) : string :=
  match parts with
  | [] => EmptyString
  | [p] => p
  | p :: rest => p ++ sep ++ join sep rest
  end.

Fixpoint json_dumps (v : json) : string :=
  match v with
  | JNull => "null"
  | JBool b => if b then "true" else "false"
  | JInt z => int_repr z
  | JFloat f => floatstr f
  | JString s => encode_basestring_ascii s
  | JArray items => "[" ++ join ", " (map json_dumps items) ++ "]"
  | JObject members =>
      "{" ++ join ", "
               (map (fun kv => encode_basestring_ascii (fst kv)
                                 ++ ": " ++ json_dumps (snd kv)) members)
          ++ "}"
  end.

(** ** [json.loads]

    The scanner of the decoder: [NUMBER_RE], [scanstring], [JSONArray],
    [JSONObject] and [scan_once].  An escape [\uXXXX] of a code point above 255 has no
    counterpart in the strings of this model and is refused. *)

Definition is_ws (c : ascii) : bool :=
  let n := nat_of_ascii c in
  (n =? 32)%nat || (n =? 9)%nat || (n =? 10)%nat || (n =? 13)%nat.

Fixpoint skip_ws (s : string) : string :=
  match s with
  | String c r => if is_ws c then skip_ws r else s
  | EmptyString => s
  end.

Fixpoint strip_prefix (p s : string) : option string :=
  match p, s with
  | EmptyString, _ => Some s
  | String a p', String b s' =>
      if Ascii.eqb a b then strip_prefix p' s' else None
  | String _ _, EmptyString => None
  end.

(** The groups of a match of [NUMBER_RE]: the sign and the digits of the
    integer part, the digits of the fraction, the sign and the digits of
    the exponent. *)
Record number_match : Type := {
  nm_neg : bool;
  nm_int : string;
  nm_frac : option string;
  nm_exp : option (bool * string)
}.

(** The first group of [NUMBER_RE]: an optional minus sign, then either
    a single zero or a digit from 1 to 9 followed by any digits. *)
Definition match_integer (s : string) : option (bool * string * string) :=
  let '(neg, s1) :=
    match s with
    | String "-" r => (true, r)
    | _ => (false, s)
    end in
  match s1 with
  | String "0" r => Some (neg, "0", r)
  | String c _ =>
      if is_digit c
      then let '(ds, rest) := span_digits s1 in Some (neg, ds, rest)
      else None
  | EmptyString => None
  end.

(** The second group, optional: a dot and at least one digit. *)
Definition match_frac (s : string) : option string * string :=
  match s with
  | String "." (String c _ as r) =>
      if is_digit c
      then let '(ds, rest) := span_digits r in (Some ds, rest)
      else (None, s)
  | _ => (None, s)
  end.

(** The third group, optional: [e] or [E], an optional sign and at least
    one digit. *)
Definition match_exp (s : string) : option (bool * string) * string :=
  match s with
  | String c r =>
      if Ascii.eqb c "e" || Ascii.eqb c "E" then
        let '(neg, r1) :=
          match r with
          | String "-" r' => (true, r')
          | String "+" r' => (false, r')
          | _ => (false, r)
          end in
        match r1 with
        | String d _ =>
            if is_digit d
            then let '(ds, rest) := span_digits r1 in (Some (neg, ds), rest)
            else (None, s)
        | EmptyString => (None, s)
        end
      else (None, s)
  | EmptyString => (None, s)
  end.

Definition match_number (s : string) : option (number_match * string) :=
  match match_integer s with
  | None => None
  | Some (neg, ds, r1) =>
      let '(frac, r2) := match_frac r1 in
      let '(ex, r3) := match_exp r2 in
      Some ({| nm_neg := neg; nm_int := ds; nm_frac := frac;
               nm_exp := ex |}, r3)
  end.

(** [int(integer)], and [float(integer + frac + exp)]: the digits of the
    integer part and of the fraction, scaled by the exponent less the
    length of the fraction. *)
Definition number_value (m : number_match) : json :=
  match nm_frac m, nm_exp m with
  | None, None =>
      let v := digits_value 0 (nm_int m) in
      JInt (if nm_neg m then - v else v)
  | fr, ex =>
      let fd := match fr with Some ds => ds | None => EmptyString end in
      let x := match ex with
               | Some (neg, ds) =>
                   let v := digits_value 0 ds in if neg then - v else v
               | None => 0
               end in
      JFloat (float_of_decimal (nm_neg m)
                (digits_value 0 (nm_int m ++ fd)) (x - zlength fd))
  end.

Definition hex_value (c : ascii) : option nat :=
  let n := nat_of_ascii c in
  if is_digit c then Some (n - 48)%nat
  else if (97 <=? n)%nat && (n <=? 102)%nat then Some (n - 87)%nat
  else if (65 <=? n)%nat && (n <=? 70)%nat then Some (n - 55)%nat
  else None.

(** [scanstring] in strict mode, after the opening quote.  Of the [\u]
    escapes it reads [\u00XX], which is all that the encoder writes for a
    string of the model; on another one, which Python decodes to a code
    point of 256 or more (joining a surrogate pair), it gives no result. *)
Fixpoint scanstring (s : string) : option (string * string) :=
  match s with
  | EmptyString => None
  | String c r =>
      if Ascii.eqb c quote then Some (EmptyString, r)
      else if Ascii.eqb c backslash then
        match r with
        | String e r' =>
            let lit (x : ascii) :=
              match scanstring r' with
              | Some (t, rest) => Some (String x t, rest)
              | None => None
              end in
            if Ascii.eqb e quote then lit quote
            else if Ascii.eqb e backslash then lit backslash
            else if Ascii.eqb e "/" then lit "/"%char
            else if Ascii.eqb e "b" then lit "008"%char
            else if Ascii.eqb e "f" then lit "012"%char
            else if Ascii.eqb e "n" then lit "010"%char
            else if Ascii.eqb e "r" then lit "013"%char
            else if Ascii.eqb e "t" then lit "009"%char
            else if Ascii.eqb e "u" then
              match r' with
              | String "0" (String "0" (String h (String l r''))) =>
                  match hex_value h, hex_value l, scanstring r'' with
                  | Some a, Some b, Some (t, rest) =>
                      Some (String (ascii_of_nat (16 * a + b)) t, rest)
                  | _, _, _ => None
                  end
              | _ => None
              end
            else None
        | EmptyString => None
        end
      else if (nat_of_ascii c <? 32)%nat then None
      else
        match scanstring r with
        | Some (t, rest) => Some (String c t, rest)
        | None => None
        end
  end.

(** Storing a key in a [dict]: a key already there keeps its place and
    takes the new value. *)
Fixpoint dict_set (k : string) (v : json) (d : list (string * json))
  : list (string * json) :=
  match d with
  | [] => [(k, v)]
  | (k', v') :: rest =>
      if String.eqb k k' then (k, v) :: rest
      else (k', v') :: dict_set k v rest
  end.

(** [scan_once] reads one value at the head of the text, [scan_array] the
    items of an array after its first item position, [scan_object] the
    members of an object from a key on.  The fuel bounds the number of
    nested calls; [json_loads] gives as much as the text is long. *)
Fixpoint scan_once (fuel : nat) (s : string) : option (json * string) :=
  match fuel with
  | O => None
  | S fuel' =>
      match s with
      | EmptyString => None
      | String c r =>
          if Ascii.eqb c quote then
            match scanstring r with
            | Some (t, rest) => Some (JString t, rest)
            | None => None
            end
          else if Ascii.eqb c "{" then
            match skip_ws r with
            | String "}" rest => Some (JObject [], rest)
            | r1 => scan_object fuel' r1 []
            end
          else if Ascii.eqb c "[" then
            match skip_ws r with
            | String "]" rest => Some (JArray [], rest)
            | r1 => scan_array fuel' r1 []
            end
          else
            match strip_prefix "null" s, strip_prefix "true" s,
                  strip_prefix "false" s with
            | Some rest, _, _ => Some (JNull, rest)
            | _, Some rest, _ => Some (JBool true, rest)
            | _, _, Some rest => Some (JBool false, rest)
            | None, None, None =>
                match match_number s with
                | Some (m, rest) => Some (number_value m, rest)
                | None =>
                    match strip_prefix "NaN" s, strip_prefix "Infinity" s,
                          strip_prefix "-Infinity" s with
                    | Some rest, _, _ => Some (JFloat S754_nan, rest)
                    | _, Some rest, _ =>
                        Some (JFloat (S754_infinity false), rest)
                    | _, _, Some rest =>
                        Some (JFloat (S754_infinity true), rest)
                    | None, None, None => None
                    end
                end
            end
      end
  end

with scan_array (fuel : nat) (s : string) (acc : list json)
  : option (json * string) :=
  match fuel with
  | O => None
  | S fuel' =>
      match scan_once fuel' s with
      | None => None
      | Some (v, r) =>
          match skip_ws r with
          | String "]" rest => Some (JArray (acc ++ [v]), rest)
          | String "," rest => scan_array fuel' (skip_ws rest) (acc ++ [v])
          | _ => None
          end
      end
  end

with scan_object (fuel : nat) (s : string) (acc : list (string * json))
  : option (json * string) :=
  match fuel with
  | O => None
  | S fuel' =>
      match s with
      | String c r =>
          if Ascii.eqb c quote then
            match scanstring r with
            | None => None
            | Some (k, r1) =>
                match skip_ws r1 with
                | String ":" r2 =>
                    match scan_once fuel' (skip_ws r2) with
                    | None => None
                    | Some (v, r3) =>
                        match skip_ws r3 with
                        | String "}" rest =>
                            Some (JObject (dict_set k v acc), rest)
                        | String "," rest =>
                            scan_object fuel' (skip_ws rest)
                              (dict_set k v acc)
                        | _ => None
                        end
                    end
                | _ => None
                end
            end
          else None
      | EmptyString => None
      end
  end.

(** [json.loads]: one value between optional white space, and nothing
    after it. *)
Definition json_loads (s : string) : option json :=
  match scan_once (S (String.length s)) (skip_ws s) with
  | Some (v, rest) =>
      match skip_ws rest with
      | EmptyString => Some v
      | _ => None
      end
  | None => None
  end.

(** ** [dict.get] *)

Fixpoint lookup (k : string) (d : list (string * json)) : option json :=
  match d with
  | [] => None
  | (k', v) :: rest => if String.eqb k k' then Some v else lookup k rest
  end.

(** ** The [fences] table

    The values SQLite stores, and the adaptation of a Python value bound
    to a [?] placeholder: [None] is NULL, an [int] (and so a [bool]) is an
    INTEGER when it fits 64 bits, a [float] is a REAL (a NaN is stored as
    NULL), a [str] is a TEXT, and a [list] or a [dict] is refused.  The
    binding encodes a [str] to UTF-8, which succeeds on every string of
    the model; the [UnicodeEncodeError] of a [str] with a lone surrogate
    is outside of it. *)

Inductive sqlval : Type :=
| SqlNull
| SqlInteger (z : Z)
| SqlReal (f : spec_float)
| SqlText (s : string).

(** What a handler can raise: [AttributeError] (a [.get] on an object that
    has none), the error of [sqlite3] on a parameter of an unsupported
    type, and [OverflowError] on an [int] outside of 64 bits. *)
Inductive error : Type :=
| AttributeError
| BindingError
| OverflowError.

Definition bind_param (v : json) : error + sqlval :=
  match v with
  | JNull => inr SqlNull
  | JBool b => inr (SqlInteger (if b then 1 else 0))
  | JInt z =>
      if (- 2 ^ 63 <=? z) && (z <? 2 ^ 63) then inr (SqlInteger z)
      else inl OverflowError
  | JFloat S754_nan => inr SqlNull
  | JFloat f => inr (SqlReal f)
  | JString s => inr (SqlText s)
  | JArray _ => inl BindingError
  | JObject _ => inl BindingError
  end.

(** Modelled from the spec: the table [fences] that [schema.sql] creates,
    which is not in the repository.  It has the columns [fence_id], [name],
    [notes], [created_at] and [coordinates], in this order, without
    constraint, and a value is stored as it is bound: the declared types
    of the columns, which could convert a value on storage, are taken to
    leave it as it is (a text in a text column, as the spec has them).
    The table is the list of its rows by increasing rowid.  A listing
    follows this list, which is how SQLite scans such a table; SQL does
    not promise an order for a [SELECT] without [ORDER BY], and the spec
    calls the order of a listing implementation-defined. *)
Record fence : Type := {
  fence_id : sqlval;
  name : sqlval;
  notes : sqlval;
  created_at : sqlval;
  coordinates : sqlval
}.

Definition store : Type := list fence.

(** ** Handlers

    A handler runs on the table and either raises or returns; what it
    leaves in the table is committed. *)
Definition M (A : Type) : Type := store -> (error + A) * store.

Definition ret {A : Type} (a : A) : M A := fun s => (inr a, s).

Definition raise {A : Type} (e : error) : M A := fun s => (inl e, s).

Definition bind {A B : Type} (c : M A) (k : A -> M B) : M B :=
  fun s =>
    match c s with
    | (inl e, s') => (inl e, s')
    | (inr a, s') => k a s'
    end.

Notation "x <- c ;; k" := (bind c (fun x => k))
  (at level 61, c at next level, right associativity).
Notation "c ;;; k" := (bind c (fun _ => k))
  (at level 61, right associativity).

Definition lift {A : Type} (r : error + A) : M A :=
  match r with
  | inl e => raise e
  | inr a => ret a
  end.

(** [obj.get(k, default)]; only a [dict] has the method. *)
Definition py_get (obj : json) (k : string) (default : json) : M json :=
  match obj with
  | JObject d =>
      ret (match lookup k d with Some v => v | None => default end)
  | _ => raise AttributeError
  end.

(** [INSERT INTO fences (...) VALUES (?, ?, ?, ?, ?)] and the commit:
    the parameters are bound from left to right, then one row is added
    after the others. *)
Definition execute_insert (p1 p2 p3 p4 p5 : json) : M unit :=
  c1 <- lift (bind_param p1) ;;
  c2 <- lift (bind_param p2) ;;
  c3 <- lift (bind_param p3) ;;
  c4 <- lift (bind_param p4) ;;
  c5 <- lift (bind_param p5) ;;
  fun s =>
    (inr tt, (s ++ [{| fence_id := c1; name := c2; notes := c3;
                       created_at := c4; coordinates := c5 |}])%list).

(** [SELECT * FROM fences] and [fetchall]: the rows by increasing rowid
    (the statement has no [ORDER BY]; see [fence]). *)
Definition execute_select : M (list fence) := fun s => (inr s, s).

(** A JSON response and its status. *)
Record response : Type := {
  body : json;
  status : Z
}.

Definition jsonify (v : json) (code : Z) : response :=
  {| body := v; status := code |}.

Definition create_geofence (data : json) : M response :=
  fence_id <- py_get data "fence_id" JNull ;;
  properties <- py_get data "properties" (JObject []) ;;
  name <- py_get properties "name" JNull ;;
  properties' <- py_get data "properties" (JObject []) ;;
  notes <- py_get properties' "notes" JNull ;;
  created_at <- py_get data "created_at" JNull ;;
  shape <- py_get data "shape" (JObject []) ;;
  coordinates <- py_get shape "coordinates" JNull ;;
  let coordinates_str := json_dumps coordinates in
  execute_insert fence_id name notes created_at (JString coordinates_str) ;;;
  ret (jsonify
         (JObject [("status", JString "success");
                   ("message", JString "Geofence created and stored")])
         201).

Definition py_of_sql (v : sqlval) : json :=
  match v with
  | SqlNull => JNull
  | SqlInteger z => JInt z
  | SqlReal f => JFloat f
  | SqlText s => JString s
  end.

(** [dict(row)]: the columns by name, in the order of the table. *)
Definition dict_of_row (r : fence) : json :=
  JObject [("fence_id", py_of_sql (fence_id r));
           ("name", py_of_sql (name r));
           ("notes", py_of_sql (notes r));
           ("created_at", py_of_sql (created_at r));
           ("coordinates", py_of_sql (coordinates r))].

Definition get_geofences : M response :=
  fences_rows <- execute_select ;;
  let fences_list := map dict_of_row fences_rows in
  ret (jsonify (JArray fences_list) 200).

(** What the client receives: the response of the handler, or the status
    500 when the handler raises. *)
Definition status_of (r : error + response) : Z :=
  match r with
  | inl _ => 500
  | inr resp => status resp
  end.

(** A series of create requests, one after the other. *)
Fixpoint create_all (payloads : list json) (s : store) : store :=
  match payloads with
  | [] => s
  | p :: rest => create_all rest (snd (create_geofence p s))
  end.

(** ** The shape of a request

    A field of the record is a string, or is missing ([None] stands for a
    missing one). *)
Definition optional_string (v : option json) : bool :=
  match v with
  | None => true
  | Some JNull => true
  | Some (JString _) => true
  | Some _ => false
  end.

(** A create payload as section 4.1 of the specification gives it: an
    object whose [fence_id], [created_at], [properties.name] and
    [properties.notes] are strings when present, and whose [properties]
    and [shape] are objects when present. *)
Definition valid_payload (data : json) : bool :=
  match data with
  | JObject d =>
      optional_string (lookup "fence_id" d)
      && optional_string (lookup "created_at" d)
      && match lookup "properties" d with
         | None => true
         | Some (JObject p) =>
             optional_string (lookup "name" p)
             && optional_string (lookup "notes" p)
         | Some _ => false
         end
      && match lookup "shape" d with
         | None => true
         | Some (JObject _) => true
         | Some _ => false
         end
  | _ => false
  end.

(** The value of a field of the payload, [JNull] when it is missing. *)
Definition field (k : string) (data : json) : json :=
  match data with
  | JObject d => match lookup k d with Some v => v | None => JNull end
  | _ => JNull
  end.

(** A coordinates structure: numbers in arrays nested at any depth. *)
Fixpoint is_coords (v : json) : bool :=
  match v with
  | JInt _ => true
  | JFloat f => is_float f
  | JArray items => forallb is_coords items
  | _ => false
  end.

(** The response of a create request that went through. *)
Definition created : response :=
  jsonify
    (JObject [("status", JString "success");
              ("message", JString "Geofence created and stored")])
    201.

(** The record that a payload stands for, by the data model of the
    specification: the four fields of the payload, a missing one being
    null, and the text of the coordinates. *)
Definition record_of_payload (data : json) : json :=
  JObject [("fence_id", field "fence_id" data);
           ("name", field "name" (field "properties" data));
           ("notes", field "notes" (field "properties" data));
           ("created_at", field "created_at" data);
           ("coordinates",
             JString (json_dumps
                        (field "coordinates" (field "shape" data))))].

Definition is_object (v : json) : bool :=
  match v with
  | JObject _ => true
  | _ => false
  end.

(** ** The example of the specification

    The floats [1.0], [2.0], [3.0] and [4.0], the coordinates
    [[[1.0,2.0],[3.0,4.0]]] and the payload of the example. *)
Definition float_1 : spec_float := S754_finite false 4503599627370496 (-52).
Definition float_2 : spec_float := S754_finite false 4503599627370496 (-51).
Definition float_3 : spec_float := S754_finite false 6755399441055744 (-51).
Definition float_4 : spec_float := S754_finite false 4503599627370496 (-50).

Definition example_coordinates : json :=
  JArray [JArray [JFloat float_1; JFloat float_2];
          JArray [JFloat float_3; JFloat float_4]].

Definition example_payload : json :=
  JObject [("fence_id", JString "f1");
           ("properties",
             JObject [("name", JString "Yard"); ("notes", JString "back")]);
           ("created_at", JString "2024-01-01T00:00:00Z");
           ("shape", JObject [("coordinates", example_coordinates)])].

(** ** Vocabulary of the proofs

    Ratios scaled by a power, the shapes of the texts of numbers, the
    values that the decoder is proved to read back, and the payloads that
    a create request accepts. *)

(** The ratio [n / d] scaled by [b ^ (- k)]: numerator and denominator. *)
Definition snum (b n k : Z) : Z := n * up b (- k).
Definition sden (b d k : Z) : Z := d * up b k.

(** The mantissa and the exponent of a finite binary64 value. *)
Definition canonical64 (m e : Z) : Prop :=
  (2 ^ 52 <= m < 2 ^ 53 /\ -1074 <= e <= 971)
  \/ (0 < m < 2 ^ 52 /\ e = -1074).

(** A text made of decimal digits only. *)
Fixpoint all_digits (s : string) : bool :=
  match s with
  | EmptyString => true
  | String c r => is_digit c && all_digits r
  end.

(** What may follow a run of digits: nothing, or a character that is not
    a digit. *)
Definition no_digit_ahead (s : string) : Prop :=
  match s with
  | EmptyString => True
  | String c _ => is_digit c = false
  end.

(** The digits of an integer part: a single zero, or digits that do not
    start with a zero. *)
Definition good_int (I : string) : Prop :=
  all_digits I = true
  /\ exists c r, I = String c r /\ (c = "0"%char -> r = "").

Definition good_digits (F : string) : Prop :=
  all_digits F = true /\ F <> "".

(** What may follow a number: nothing, or a character that continues
    neither its digits, nor a fraction, nor an exponent. *)
Definition number_end (s : string) : Prop :=
  match s with
  | EmptyString => True
  | String c _ =>
      is_digit c = false /\ c <> "."%char /\ c <> "e"%char /\ c <> "E"%char
  end.

Definition sign_text (neg : bool) : string := if neg then "-" else "".

Definition frac_text (fr : option string) : string :=
  match fr with
  | Some F => "." ++ F
  | None => ""
  end.

Definition exp_text (ex : option (bool * string)) : string :=
  match ex with
  | Some (neg, X) => "e" ++ (if neg then "-" else "+") ++ X
  | None => ""
  end.

Definition frac_ok (fr : option string) : Prop :=
  match fr with
  | Some F => good_digits F
  | None => True
  end.

Definition exp_ok (ex : option (bool * string)) : Prop :=
  match ex with
  | Some (_, X) => good_digits X
  | None => True
  end.

(** A printable ASCII character, from the space to the tilde. *)
Definition printable (c : ascii) : bool :=
  (32 <=? nat_of_ascii c)%nat && (nat_of_ascii c <=? 126)%nat.

Fixpoint all_printable (s : string) : bool :=
  match s with
  | EmptyString => true
  | String c r => printable c && all_printable r
  end.

Section JsonInd.
Variable P : json -> Prop.
Hypothesis Hnull : P JNull.
Hypothesis Hbool : forall b, P (JBool b).
Hypothesis Hint : forall z, P (JInt z).
Hypothesis Hfloat : forall f, P (JFloat f).
Hypothesis Hstring : forall s, P (JString s).
Hypothesis Harray : forall items, Forall P items -> P (JArray items).
Hypothesis Hobject :
    forall members, Forall (fun kv => P (snd kv)) members ->
    P (JObject members).

Fixpoint json_induction (v : json) : P v :=
    match v with
    | JNull => Hnull
    | JBool b => Hbool b
    | JInt z => Hint z
    | JFloat f => Hfloat f
    | JString s => Hstring s
    | JArray items =>
        Harray items
          ((fix all (l : list json) : Forall P l :=
              match l with
              | [] => Forall_nil P
              | x :: r => Forall_cons x (json_induction x) (all r)
              end) items)
    | JObject members =>
        Hobject members
          ((fix all (l : list (string * json))
              : Forall (fun kv => P (snd kv)) l :=
              match l with
              | [] => Forall_nil _
              | x :: r => Forall_cons x (json_induction (snd x)) (all r)
              end) members)
    end.
End JsonInd.

(** No key comes twice. *)
Fixpoint distinct_keys (ks : list string) : bool :=
  match ks with
  | [] => true
  | k :: rest => negb (existsb (String.eqb k) rest) && distinct_keys rest
  end.

(** A value as [request.get_json()] builds it: its floats are binary64
    values and the keys of a [dict] are distinct. *)
Fixpoint well_formed (v : json) : bool :=
  match v with
  | JFloat f => is_float f
  | JArray items => forallb well_formed items
  | JObject members =>
      forallb (fun kv => well_formed (snd kv)) members
      && distinct_keys (map fst members)
  | _ => true
  end.

(** The number of nested calls that the scanner needs for a value. *)
Fixpoint json_size (v : json) : nat :=
  match v with
  | JArray items =>
      S (fold_right (fun x n => S (json_size x + n)) O items)
  | JObject members =>
      S (fold_right (fun kv n => S (json_size (snd kv) + n)) O members)
  | _ => 1
  end.

(** A text that starts a value: its first character is no white space and
    closes nothing. *)
Definition starts_value (s : string) : Prop :=
  exists c r, s = String c r /\ is_ws c = false
              /\ c <> "]"%char /\ c <> "}"%char.

Definition items_size (items : list json) : nat :=
  fold_right (fun x n => S (json_size x + n)) O items.

Definition members_size (members : list (string * json)) : nat :=
  fold_right (fun kv n => S (json_size (snd kv) + n)) O members.

(** The text of one member of an object. *)
Definition member_text (kv : string * json) : string :=
  encode_basestring_ascii (fst kv) ++ ": " ++ json_dumps (snd kv).

(** What is proved of each value, by induction. *)
Definition reads (v : json) : Prop :=
  well_formed v = true ->
  (forall fuel rest,
     (json_size v <= fuel)%nat -> number_end rest ->
     scan_once fuel (json_dumps v ++ rest) = Some (v, rest))
  /\ starts_value (json_dumps v).

(** A value that [sqlite3] binds to a placeholder. *)
Definition bindable (v : json) : bool :=
  match bind_param v with
  | inr _ => true
  | inl _ => false
  end.

(** The payloads that [create_geofence] goes through with: an object whose
    [properties] and [shape] are objects when present, and whose four
    fields can be bound. *)
Definition accepted (data : json) : bool :=
  match data with
  | JObject d =>
      let properties :=
        match lookup "properties" d with Some v => v | None => JObject [] end in
      let shape :=
        match lookup "shape" d with Some v => v | None => JObject [] end in
      is_object properties && is_object shape
      && bindable (field "fence_id" data)
      && bindable (field "name" properties)
      && bindable (field "notes" properties)
      && bindable (field "created_at" data)
  | _ => false
  end.

(** The row of the example in the table. *)
Definition example_row : fence :=
  {| fence_id := SqlText "f1";
     name := SqlText "Yard";
     notes := SqlText "back";
     created_at := SqlText "2024-01-01T00:00:00Z";
     coordinates := SqlText "[[1.0, 2.0], [3.0, 4.0]]" |}.

(** * Properties of the handlers *)

Section Handlers.

Ltac bind_next :=
  match goal with
  | |- context [bind_param ?v] =>
      lazymatch v with
      | JString _ => fail
      | _ => destruct (bind_param v); cbn [lift raise ret]; try reflexivity
      end
  end.

(** What a create request does is the same on any table: it raises and
    leaves the table as it is, or returns and adds the rows that it adds to
    an empty table. *)
Lemma create_geofence_frame (data : json) (s : store) :
  create_geofence data s =
    match create_geofence data [] with
    | (inl e, _) => (inl e, s)
    | (inr resp, rows) => (inr resp, (s ++ rows)%list)
    end.
Proof.
  unfold create_geofence, execute_insert, bind, py_get.
  destruct data; try reflexivity.
  destruct (lookup "properties" members) as [[]|]; try reflexivity;
  destruct (lookup "shape" members) as [[]|]; try reflexivity;
  cbn [lift raise ret bind_param]; repeat bind_next.
Qed.

(** On an empty table a create request leaves at most one row, and
    exactly one when it returns. *)
Lemma create_geofence_empty (data : json) :
  (exists e, create_geofence data [] = (inl e, [])) \/
  (exists r, create_geofence data [] = (inr created, [r])).
Proof.
  unfold create_geofence, execute_insert, bind, py_get.
  destruct data; try (left; eexists; reflexivity).
  destruct (lookup "properties" members) as [[]|];
    try (left; eexists; reflexivity);
  destruct (lookup "shape" members) as [[]|];
    try (left; eexists; reflexivity);
  cbn [lift raise ret bind_param];
  repeat match goal with
    | |- context [bind_param ?v] =>
        lazymatch v with
        | JString _ => fail
        | _ => destruct (bind_param v); cbn [lift raise ret];
               try (left; eexists; reflexivity)
        end
    end;
  right; eexists; reflexivity.
Qed.

Lemma create_geofence_cases (data : json) :
  (exists e, forall s, create_geofence data s = (inl e, s)) \/
  (exists r, forall s, create_geofence data s = (inr created, (s ++ [r])%list)).
Proof.
  destruct (create_geofence_empty data) as [[e H] | [r H]].
  - left. exists e. intros s. rewrite create_geofence_frame, H. reflexivity.
  - right. exists r. intros s. rewrite create_geofence_frame, H. reflexivity.
Qed.

Lemma optional_string_inv (v : option json) :
  optional_string v = true ->
  v = None \/ v = Some JNull \/ exists t, v = Some (JString t).
Proof.
  destruct v as [[]|]; try discriminate; eauto.
Qed.

(** A valid payload goes through, and the row it adds reads as the record
    of the payload. *)
Lemma create_geofence_valid (data : json) (s : store) :
  valid_payload data = true ->
  exists r,
    create_geofence data s = (inr created, (s ++ [r])%list)
    /\ dict_of_row r = record_of_payload data.
Proof.
  intros V. rewrite create_geofence_frame.
  destruct data as [| | | | |? | d]; try discriminate.
  unfold valid_payload in V.
  apply andb_prop in V as [V Vs]. apply andb_prop in V as [V Vp].
  apply andb_prop in V as [Vf Vc].
  apply optional_string_inv in Vf, Vc.
  unfold create_geofence, execute_insert, bind, py_get, record_of_payload,
    field.
  destruct (lookup "shape" d) as [sh|].
  2: destruct (lookup "properties" d) as [pr|].
  1: destruct sh; try discriminate;
     destruct (lookup "properties" d) as [pr|].
  all: try (destruct pr as [| | | | | ? | pm]; try discriminate;
            apply andb_prop in Vp as [Vn Vo];
            apply optional_string_inv in Vn, Vo;
            destruct Vn as [Vn | [Vn | [? Vn]]];
            destruct Vo as [Vo | [Vo | [? Vo]]]).
  all: destruct Vf as [Vf | [Vf | [? Vf]]];
       destruct Vc as [Vc | [Vc | [? Vc]]];
       cbn [ret raise lift bind_param]; rewrite ?Vf, ?Vc, ?Vn, ?Vo;
       eexists; split; reflexivity.
Qed.

(** A listing returns the rows of the table as records, with status 200,
    and leaves the table as it is. *)
Lemma get_geofences_run (s : store) :
  get_geofences s = (inr (jsonify (JArray (map dict_of_row s)) 200), s).
Proof. reflexivity. Qed.

Lemma create_all_app (ps qs : list json) (s : store) :
  create_all (ps ++ qs) s = create_all qs (create_all ps s).
Proof.
  revert s. induction ps as [| p ps IH]; intros s; simpl; auto.
Qed.


End Handlers.

Section Claims.

Lemma field_record_of_payload (data : json) :
  field "fence_id" (record_of_payload data) = field "fence_id" data
  /\ field "name" (record_of_payload data)
     = field "name" (field "properties" data)
  /\ field "notes" (record_of_payload data)
     = field "notes" (field "properties" data)
  /\ field "created_at" (record_of_payload data) = field "created_at" data.
Proof. repeat split. Qed.

(** C1.  After a create request with a valid payload went through, the
    listing holds a record whose [fence_id], [name], [notes] and
    [created_at] are those of the payload, a missing one being null. *)
Theorem created_record_is_listed (data : json) (s : store) :
  valid_payload data = true ->
  exists s' items r,
    create_geofence data s = (inr created, s')
    /\ get_geofences s' = (inr (jsonify (JArray items) 200), s')
    /\ In r items
    /\ field "fence_id" r = field "fence_id" data
    /\ field "name" r = field "name" (field "properties" data)
    /\ field "notes" r = field "notes" (field "properties" data)
    /\ field "created_at" r = field "created_at" data.
Proof.
  intros V. destruct (create_geofence_valid data s V) as (r & Hr & Hd).
  exists (s ++ [r])%list, (map dict_of_row (s ++ [r])), (dict_of_row r).
  split; [exact Hr |]. split; [apply get_geofences_run |].
  split.
  - apply in_map, in_or_app. right. now left.
  - rewrite Hd. apply field_record_of_payload.
Qed.

Lemma created_record_is_listed_witness :
  valid_payload example_payload = true
  /\ exists s' items r,
       create_geofence example_payload [] = (inr created, s')
       /\ get_geofences s' = (inr (jsonify (JArray items) 200), s')
       /\ In r items
       /\ field "fence_id" r = field "fence_id" example_payload
       /\ field "name" r = field "name" (field "properties" example_payload)
       /\ field "notes" r
          = field "notes" (field "properties" example_payload)
       /\ field "created_at" r = field "created_at" example_payload.
Proof.
  split; [reflexivity |].
  apply (created_record_is_listed example_payload []). reflexivity.
Defined.

(** C3.  The example: on an empty table the payload is answered by 201
    and the success message, and the listing that follows holds one
    record, with [fence_id] "f1", [name] "Yard", and coordinates whose
    text decodes to [[[1.0,2.0],[3.0,4.0]]], the floats being those that
    the literals of the payload denote. *)
Theorem example_create_then_list :
  json_loads "[[1.0,2.0],[3.0,4.0]]" = Some example_coordinates
  /\ exists s' r text,
       create_geofence example_payload []
       = (inr {| body :=
                   JObject [("status", JString "success");
                            ("message",
                              JString "Geofence created and stored")];
                 status := 201 |}, s')
       /\ get_geofences s' = (inr {| body := JArray [r]; status := 200 |}, s')
       /\ field "fence_id" r = JString "f1"
       /\ field "name" r = JString "Yard"
       /\ field "coordinates" r = JString text
       /\ json_loads text = Some example_coordinates.
Proof.
  split; [vm_compute; reflexivity |].
  eexists. eexists. eexists.
  split; [vm_compute; reflexivity |].
  split; [vm_compute; reflexivity |].
  repeat split; vm_compute; reflexivity.
Qed.



Lemma create_geofence_fence_id (data : json) (resp : response) (r : fence) :
  create_geofence data [] = (inr resp, [r]) ->
  bind_param (field "fence_id" data) = inr (fence_id r).
Proof.
  unfold create_geofence, execute_insert, bind, py_get, field.
  destruct data; try discriminate.
  destruct (lookup "properties" members) as [[]|]; try discriminate;
  destruct (lookup "shape" members) as [[]|]; try discriminate;
  cbn [lift raise ret bind_param];
  repeat match goal with
    | |- context [bind_param ?v] =>
        lazymatch v with
        | JString _ => fail
        | _ => destruct (bind_param v); cbn [lift raise ret];
               try discriminate
        end
    end;
  intros H; injection H as _ <-; reflexivity.
Qed.

(** C5.  A create request that goes through adds exactly one row,
    whatever the table holds; two such requests add two rows, and when
    their payloads carry the same [fence_id] both rows carry it. *)
Theorem create_appends_one_row
    (p1 p2 : json) (s1 s2 : store) (resp1 resp2 : response) :
  fst (create_geofence p1 s1) = inr resp1 ->
  fst (create_geofence p2 s2) = inr resp2 ->
  exists r1 r2,
    (forall s, create_geofence p1 s = (inr created, (s ++ [r1])%list))
    /\ (forall s, create_geofence p2 s = (inr created, (s ++ [r2])%list))
    /\ (forall s, create_all [p1; p2] s = (s ++ [r1; r2])%list)
    /\ (field "fence_id" p1 = field "fence_id" p2 ->
        fence_id r1 = fence_id r2).
Proof.
  intros H1 H2.
  destruct (create_geofence_cases p1) as [[e E1] | [r1 E1]];
    [rewrite E1 in H1; discriminate |].
  destruct (create_geofence_cases p2) as [[e E2] | [r2 E2]];
    [rewrite E2 in H2; discriminate |].
  exists r1, r2. repeat split; auto.
  - intros s. simpl. rewrite E1. simpl. rewrite E2. simpl.
    now rewrite <- app_assoc.
  - intros F.
    pose proof (create_geofence_fence_id p1 created r1 (E1 [])) as B1.
    pose proof (create_geofence_fence_id p2 created r2 (E2 [])) as B2.
    rewrite F, B2 in B1. now injection B1.
Qed.

Lemma create_appends_one_row_witness :
  fst (create_geofence example_payload []) = inr created
  /\ fst (create_geofence (JObject [("fence_id", JString "f1")]) [])
     = inr created
  /\ exists r1 r2,
       (forall s,
          create_geofence example_payload s
          = (inr created, (s ++ [r1])%list))
       /\ (forall s,
             create_geofence (JObject [("fence_id", JString "f1")]) s
             = (inr created, (s ++ [r2])%list))
       /\ (forall s,
             create_all
               [example_payload; JObject [("fence_id", JString "f1")]] s
             = (s ++ [r1; r2])%list)
       /\ (field "fence_id" example_payload
           = field "fence_id" (JObject [("fence_id", JString "f1")]) ->
           fence_id r1 = fence_id r2).
Proof.
  split; [reflexivity |]. split; [reflexivity |].
  apply (create_appends_one_row example_payload
           (JObject [("fence_id", JString "f1")]) [] [] created created);
    reflexivity.
Defined.

(** C7.  On a table without rows the listing is the empty sequence, with
    status 200. *)
Theorem list_of_empty_store :
  get_geofences [] = (inr {| body := JArray []; status := 200 |}, [])
  /\ status_of (fst (get_geofences [])) = 200.
Proof. split; reflexivity. Qed.

(** C8.  A listing leaves the table as it is; a create request adds at
    most one row after those of the table, and every row that was there is
    still there, at its place and with its fields. *)
Theorem stored_rows_are_kept (data : json) (s : store) :
  snd (get_geofences s) = s
  /\ (exists added,
        snd (create_geofence data s) = (s ++ added)%list
        /\ (List.length added <= 1)%nat)
  /\ (forall i r,
        nth_error s i = Some r ->
        nth_error (snd (create_geofence data s)) i = Some r).
Proof.
  split; [reflexivity |].
  assert (A : exists added,
             snd (create_geofence data s) = (s ++ added)%list
             /\ (List.length added <= 1)%nat).
  { destruct (create_geofence_cases data) as [[e E] | [r E]]; rewrite E.
    - exists []. simpl. rewrite app_nil_r. auto.
    - exists [r]. simpl. auto. }
  split; [exact A |].
  destruct A as (added & -> & _). intros i r H.
  rewrite nth_error_app1; [exact H |].
  apply nth_error_Some. congruence.
Qed.

(** C9.  When the payload has a [properties] that is not an object, the
    create request raises on the extraction of the fields: the client gets
    the status 500 and no row is added. *)
Theorem create_with_bad_properties
    (d : list (string * json)) (v : json) (s : store) :
  lookup "properties" d = Some v ->
  is_object v = false ->
  create_geofence (JObject d) s = (inl AttributeError, s)
  /\ status_of (fst (create_geofence (JObject d) s)) = 500.
Proof.
  intros P O.
  assert (E : create_geofence (JObject d) s = (inl AttributeError, s)).
  { unfold create_geofence, bind, py_get. rewrite P.
    destruct v; try discriminate; reflexivity. }
  rewrite E. split; reflexivity.
Qed.

Lemma create_with_bad_properties_witness :
  lookup "properties" [("fence_id", JString "f3");
                       ("properties", JString "Yard")] = Some (JString "Yard")
  /\ is_object (JString "Yard") = false
  /\ create_geofence
       (JObject [("fence_id", JString "f3"); ("properties", JString "Yard")])
       [] = (inl AttributeError, [])
  /\ status_of
       (fst (create_geofence
               (JObject [("fence_id", JString "f3");
                         ("properties", JString "Yard")]) [])) = 500.
Proof.
  split; [reflexivity |]. split; [reflexivity |].
  apply (create_with_bad_properties
           [("fence_id", JString "f3"); ("properties", JString "Yard")]
           (JString "Yard") []); reflexivity.
Defined.

End Claims.

(** * The decoder reads back what the encoder writes *)

Ltac bits c :=
  destruct c as [[] [] [] [] [] [] [] []].

Ltac bind_cases tac :=
  repeat match goal with
    | |- context [bind_param ?v] =>
        lazymatch v with
        | JString _ => fail
        | _ => destruct (bind_param v) eqn:?; cbn [lift raise ret]; tac
        end
    end.

Ltac settle H :=
  first [ discriminate H
        | eexists; reflexivity
        | cbn in H; rewrite ?andb_false_r in H; discriminate H ].

(** * Rounding a ratio to binary64 *)

Section Rounding.

Lemma up_pos (b k : Z) : 0 < b -> 0 < up b k.
Proof. intros H. unfold up. apply Z.pow_pos_nonneg; lia. Qed.

Lemma up_nonneg (b k : Z) : 0 <= k -> up b k = b ^ k.
Proof. intros H. unfold up. f_equal. lia. Qed.

Lemma up_nonpos (b k : Z) : k <= 0 -> up b k = 1.
Proof. intros H. unfold up. replace (Z.max 0 k) with 0 by lia. reflexivity. Qed.

(** [b ^ (k + j) = b ^ j * b ^ k], on numerators and denominators. *)
Lemma up_shift (b k j : Z) :
  0 < b -> 0 <= j ->
  up b (k + j) * up b (- k) = b ^ j * (up b k * up b (- (k + j))).
Proof.
  intros Hb Hj.
  destruct (Z_le_gt_dec 0 k) as [Hk | Hk].
  - rewrite (up_nonneg b (k + j)), (up_nonneg b k),
      (up_nonpos b (- k)), (up_nonpos b (- (k + j))) by lia.
    rewrite Z.pow_add_r by lia. ring.
  - destruct (Z_le_gt_dec 0 (k + j)) as [Hkj | Hkj].
    + rewrite (up_nonneg b (k + j)), (up_nonpos b k),
        (up_nonneg b (- k)), (up_nonpos b (- (k + j))) by lia.
      assert (E : b ^ (k + j) * b ^ (- k) = b ^ j).
      { rewrite <- Z.pow_add_r by lia. f_equal. lia. }
      rewrite E. ring.
    + rewrite (up_nonpos b (k + j)), (up_nonpos b k),
        (up_nonneg b (- k)), (up_nonneg b (- (k + j))) by lia.
      assert (E : b ^ (- k) = b ^ j * b ^ (- (k + j))).
      { rewrite <- Z.pow_add_r by lia. f_equal. lia. }
      rewrite E. ring.
Qed.

Lemma scaled_shift (b n d k j : Z) :
  0 < b -> 0 <= j ->
  snum b n k * sden b d (k + j) = b ^ j * (snum b n (k + j) * sden b d k).
Proof.
  intros Hb Hj. unfold snum, sden.
  pose proof (up_shift b k j Hb Hj) as H.
  transitivity (n * d * (up b (k + j) * up b (- k))); [ring |].
  rewrite H. ring.
Qed.

Lemma snum_pos b n k : 0 < b -> 0 < n -> 0 < snum b n k.
Proof. intros. unfold snum. pose proof (up_pos b (- k)). nia. Qed.

Lemma sden_pos b d k : 0 < b -> 0 < d -> 0 < sden b d k.
Proof. intros. unfold sden. pose proof (up_pos b k). nia. Qed.

(** [floor_log2] *)
Lemma floor_log2_spec (n d : Z) :
  0 < n -> 0 < d ->
  let F := floor_log2 n d in
  sden 2 d F <= snum 2 n F /\ snum 2 n (F + 1) < sden 2 d (F + 1).
Proof.
  intros Hn Hd. unfold floor_log2.
  set (l := Z.log2 n - Z.log2 d).
  pose proof (Z.log2_spec n Hn) as [Hn1 Hn2].
  pose proof (Z.log2_spec d Hd) as [Hd1 Hd2].
  pose proof (Z.log2_nonneg n) as Ln. pose proof (Z.log2_nonneg d) as Ld.
  fold (sden 2 d l) (snum 2 n l).
  (* n / d < 2 ^ (l + 1) and 2 ^ (l - 1) <= n / d *)
  assert (U : snum 2 n (l + 1) < sden 2 d (l + 1)).
  { unfold snum, sden.
    destruct (Z_le_gt_dec 0 (l + 1)).
    - rewrite (up_nonneg 2 (l + 1)), (up_nonpos 2 (- (l + 1))) by lia.
      replace (l + 1) with (Z.succ (Z.log2 n) - Z.log2 d) by lia.
      assert (2 ^ Z.succ (Z.log2 n) = 2 ^ (Z.succ (Z.log2 n) - Z.log2 d) * 2 ^ Z.log2 d).
      { rewrite <- Z.pow_add_r by lia. f_equal. lia. }
      assert (0 < 2 ^ (Z.succ (Z.log2 n) - Z.log2 d)) by (apply Z.pow_pos_nonneg; lia).
      nia.
    - rewrite (up_nonpos 2 (l + 1)), (up_nonneg 2 (- (l + 1))) by lia.
      assert (2 ^ Z.log2 d = 2 ^ (- (l + 1)) * 2 ^ Z.succ (Z.log2 n)).
      { rewrite <- Z.pow_add_r by lia. f_equal. lia. }
      assert (0 < 2 ^ (- (l + 1))) by (apply Z.pow_pos_nonneg; lia).
      nia. }
  assert (L : sden 2 d (l - 1) <= snum 2 n (l - 1)).
  { unfold snum, sden.
    destruct (Z_le_gt_dec 0 (l - 1)).
    - rewrite (up_nonneg 2 (l - 1)), (up_nonpos 2 (- (l - 1))) by lia.
      assert (2 ^ Z.log2 n = 2 ^ (l - 1) * 2 ^ Z.succ (Z.log2 d)).
      { rewrite <- Z.pow_add_r by lia. f_equal. lia. }
      assert (0 < 2 ^ (l - 1)) by (apply Z.pow_pos_nonneg; lia).
      nia.
    - rewrite (up_nonpos 2 (l - 1)), (up_nonneg 2 (- (l - 1))) by lia.
      assert (2 ^ Z.succ (Z.log2 d) = 2 ^ (- (l - 1)) * 2 ^ Z.log2 n).
      { rewrite <- Z.pow_add_r by lia. f_equal. lia. }
      assert (0 < 2 ^ (- (l - 1))) by (apply Z.pow_pos_nonneg; lia).
      nia. }
  destruct (sden 2 d l <=? snum 2 n l) eqn:T.
  - apply Z.leb_le in T. split; assumption.
  - apply Z.leb_gt in T. split; [assumption |].
    now replace (l - 1 + 1) with l by lia.
Qed.


Lemma div_bounds (num den : Z) :
  0 < den -> (num / den) * den <= num < (num / den + 1) * den.
Proof.
  intros H. pose proof (Z.div_mod num den ltac:(lia)) as E.
  pose proof (Z.mod_pos_bound num den H). nia.
Qed.

Lemma div_unique_bounds (num den q : Z) :
  0 < den -> q * den <= num < (q + 1) * den -> num / den = q.
Proof.
  intros H B. pose proof (div_bounds num den H) as B'. nia.
Qed.

Lemma round_half_even_unique (num den m : Z) :
  0 < den -> 2 * Z.abs (num - m * den) < den ->
  round_half_even num den = m.
Proof.
  intros H A. unfold round_half_even.
  pose proof (div_bounds num den H) as B.
  pose proof (Z.div_mod num den ltac:(lia)) as E.
  set (q := num / den) in *. set (r := num mod den) in *.
  assert (Q : q = m \/ q = m - 1) by nia.
  destruct (Z.compare_spec (2 * r) den) as [C | C | C]; nia.
Qed.

Lemma round_half_even_near (num den : Z) :
  0 < den ->
  2 * Z.abs (round_half_even num den * den - num) <= den.
Proof.
  intros H. unfold round_half_even.
  pose proof (Z.mod_pos_bound num den H) as B.
  pose proof (Z.div_mod num den ltac:(lia)) as E.
  set (q := num / den) in *. set (r := num mod den) in *.
  destruct (Z.compare_spec (2 * r) den) as [C | C | C];
    try destruct (Z.even q); nia.
Qed.

Lemma round_half_even_ext (n1 d1 n2 d2 : Z) :
  0 < d1 -> 0 < d2 -> n1 * d2 = n2 * d1 ->
  round_half_even n1 d1 = round_half_even n2 d2.
Proof.
  intros H1 H2 E. unfold round_half_even.
  pose proof (div_bounds n1 d1 H1) as B1.
  assert (Q : n2 / d2 = n1 / d1).
  { apply div_unique_bounds; [assumption |]. nia. }
  rewrite Q.
  pose proof (Z.div_mod n1 d1 ltac:(lia)) as E1.
  pose proof (Z.div_mod n2 d2 ltac:(lia)) as E2.
  rewrite Q in E2.
  set (q := n1 / d1) in *.
  assert (R : (2 * (n1 mod d1) - d1) * d2 = (2 * (n2 mod d2) - d2) * d1) by nia.
  destruct (Z.compare_spec (2 * (n1 mod d1)) d1) as [C | C | C];
  destruct (Z.compare_spec (2 * (n2 mod d2)) d2) as [C' | C' | C'];
    try reflexivity; exfalso; nia.
Qed.


Lemma pow_pos2 (b j : Z) : 0 < b -> 0 <= j -> 1 <= b ^ j.
Proof. intros. pose proof (Z.pow_pos_nonneg b j). lia. Qed.

(** [b ^ (k + j) <= n / d] iff [b ^ j <= (n / d) / b ^ k]. *)
Lemma scaled_ge_shift (b n d k j c : Z) :
  0 < b -> 0 < n -> 0 < d -> 0 <= j ->
  c * sden b d (k + j) <= snum b n (k + j) <->
  c * b ^ j * sden b d k <= snum b n k.
Proof.
  intros Hb Hn Hd Hj.
  pose proof (scaled_shift b n d k j Hb Hj) as S.
  pose proof (snum_pos b n k Hb Hn). pose proof (sden_pos b d k Hb Hd).
  pose proof (snum_pos b n (k + j) Hb Hn).
  pose proof (sden_pos b d (k + j) Hb Hd).
  pose proof (pow_pos2 b j Hb Hj).
  set (x := snum b n k) in *. set (y := sden b d k) in *.
  set (x' := snum b n (k + j)) in *. set (y' := sden b d (k + j)) in *.
  set (t := b ^ j) in *.
  split; intros A.
  - apply Z.mul_le_mono_pos_r with (p := y'); [lia |].
    rewrite S.
    replace (c * t * y * y') with (t * y * (c * y')) by ring.
    replace (t * (x' * y)) with (t * y * x') by ring.
    apply Z.mul_le_mono_nonneg_l; nia.
  - apply Z.mul_le_mono_pos_l with (p := t * y); [nia |].
    replace (t * y * (c * y')) with (c * t * y * y') by ring.
    replace (t * y * x') with (t * (x' * y)) by ring.
    rewrite <- S. apply Z.mul_le_mono_nonneg_r; lia.
Qed.

Lemma scaled_lt_shift (b n d k j c : Z) :
  0 < b -> 0 < n -> 0 < d -> 0 <= j ->
  snum b n (k + j) < c * sden b d (k + j) <->
  snum b n k < c * b ^ j * sden b d k.
Proof.
  intros Hb Hn Hd Hj.
  pose proof (scaled_ge_shift b n d k j c Hb Hn Hd Hj) as G.
  split; intros A; apply Z.nle_gt; intros B; apply Z.nle_gt in A; tauto.
Qed.

Lemma floor_log2_unique (n d F : Z) :
  0 < n -> 0 < d ->
  sden 2 d F <= snum 2 n F -> snum 2 n (F + 1) < sden 2 d (F + 1) ->
  floor_log2 n d = F.
Proof.
  intros Hn Hd L U.
  pose proof (floor_log2_spec n d Hn Hd) as [L' U'].
  set (G := floor_log2 n d) in *.
  destruct (Z.lt_trichotomy G F) as [C | [C | C]]; [| assumption |]; exfalso.
  - (* n / d < 2 ^ (G + 1) <= 2 ^ F <= n / d *)
    pose proof (scaled_ge_shift 2 n d (G + 1) (F - (G + 1)) 1
                  ltac:(lia) Hn Hd ltac:(lia)) as S.
    replace (G + 1 + (F - (G + 1))) with F in S by lia.
    rewrite !Z.mul_1_l in S. apply S in L.
    pose proof (pow_pos2 2 (F - (G + 1)) ltac:(lia) ltac:(lia)).
    pose proof (sden_pos 2 d (G + 1) ltac:(lia) Hd). nia.
  - pose proof (scaled_ge_shift 2 n d (F + 1) (G - (F + 1)) 1
                  ltac:(lia) Hn Hd ltac:(lia)) as S.
    replace (F + 1 + (G - (F + 1))) with G in S by lia.
    rewrite !Z.mul_1_l in S. apply S in L'.
    pose proof (pow_pos2 2 (G - (F + 1)) ltac:(lia) ltac:(lia)).
    pose proof (sden_pos 2 d (F + 1) ltac:(lia) Hd). nia.
Qed.

Lemma floor_log2_ext (n1 d1 n2 d2 : Z) :
  0 < n1 -> 0 < d1 -> 0 < n2 -> 0 < d2 -> n1 * d2 = n2 * d1 ->
  floor_log2 n1 d1 = floor_log2 n2 d2.
Proof.
  intros Hn1 Hd1 Hn2 Hd2 E. symmetry. apply floor_log2_unique; auto.
  - pose proof (floor_log2_spec n1 d1 Hn1 Hd1) as [L _].
    unfold sden, snum in *.
    set (F := floor_log2 n1 d1) in *.
    pose proof (up_pos 2 F ltac:(lia)). pose proof (up_pos 2 (- F) ltac:(lia)).
    set (U := up 2 F) in *. set (V := up 2 (- F)) in *.
    apply Z.mul_le_mono_pos_r with (p := d1); [lia |].
    replace (n2 * V * d1) with (n1 * V * d2) by nia.
    replace (d2 * U * d1) with (d1 * U * d2) by ring.
    apply Z.mul_le_mono_nonneg_r; lia.
  - pose proof (floor_log2_spec n1 d1 Hn1 Hd1) as [_ L].
    unfold sden, snum in *.
    set (F := floor_log2 n1 d1 + 1) in *.
    pose proof (up_pos 2 F ltac:(lia)). pose proof (up_pos 2 (- F) ltac:(lia)).
    set (U := up 2 F) in *. set (V := up 2 (- F)) in *.
    apply Z.mul_lt_mono_pos_r with (p := d1); [lia |].
    replace (n2 * V * d1) with (n1 * V * d2) by nia.
    replace (d2 * U * d1) with (d1 * U * d2) by ring.
    apply Z.mul_lt_mono_pos_r; lia.
Qed.

(** The value read depends on the ratio only. *)
Lemma round_ratio_ext (s : bool) (n1 d1 n2 d2 : Z) :
  0 < n1 -> 0 < d1 -> 0 < n2 -> 0 < d2 -> n1 * d2 = n2 * d1 ->
  round_ratio s n1 d1 = round_ratio s n2 d2.
Proof.
  intros Hn1 Hd1 Hn2 Hd2 E. unfold round_ratio.
  rewrite (floor_log2_ext n1 d1 n2 d2) by assumption.
  set (X := Z.max (floor_log2 n2 d2 - 52) (-1074)).
  rewrite (round_half_even_ext (n1 * up 2 (- X)) (d1 * up 2 X)
             (n2 * up 2 (- X)) (d2 * up 2 X)).
  - reflexivity.
  - pose proof (up_pos 2 X). nia.
  - pose proof (up_pos 2 X). nia.
  - transitivity (n1 * d2 * (up 2 (- X) * up 2 X)); [ring |].
    rewrite E. ring.
Qed.

Lemma float_of_decimal_scale (s : bool) (D k j : Z) :
  0 < D -> 0 <= j ->
  float_of_decimal s (D * 10 ^ j) k = float_of_decimal s D (k + j).
Proof.
  intros HD Hj. unfold float_of_decimal.
  pose proof (pow_pos2 10 j ltac:(lia) Hj).
  destruct (Z.leb_spec (D * 10 ^ j) 0); [nia |].
  destruct (Z.leb_spec D 0); [lia |].
  pose proof (up_pos 10 k ltac:(lia)). pose proof (up_pos 10 (- k) ltac:(lia)).
  pose proof (up_pos 10 (k + j) ltac:(lia)).
  pose proof (up_pos 10 (- (k + j)) ltac:(lia)).
  apply round_ratio_ext; try nia.
  pose proof (up_shift 10 k j ltac:(lia) Hj) as S.
  transitivity (D * (10 ^ j * (up 10 k * up 10 (- (k + j))))); [ring |].
  rewrite <- S. ring.
Qed.


Lemma scaled_ge_shift1 (b n d k j : Z) :
  0 < b -> 0 < n -> 0 < d -> 0 <= j ->
  sden b d (k + j) <= snum b n (k + j) <-> b ^ j * sden b d k <= snum b n k.
Proof.
  intros Hb Hn Hd Hj.
  pose proof (scaled_ge_shift b n d k j 1 Hb Hn Hd Hj) as S.
  now rewrite !Z.mul_1_l in S.
Qed.

Lemma scaled_lt_shift1 (b n d k j : Z) :
  0 < b -> 0 < n -> 0 < d -> 0 <= j ->
  snum b n (k + j) < sden b d (k + j) <-> snum b n k < b ^ j * sden b d k.
Proof.
  intros Hb Hn Hd Hj.
  pose proof (scaled_lt_shift b n d k j 1 Hb Hn Hd Hj) as S.
  now rewrite !Z.mul_1_l in S.
Qed.

Lemma scaled_lt_mono (b n d a k : Z) :
  0 < b -> 0 < n -> 0 < d -> a <= k ->
  snum b n a < sden b d a -> snum b n k < sden b d k.
Proof.
  intros Hb Hn Hd Hk A.
  pose proof (scaled_lt_shift1 b n d a (k - a) Hb Hn Hd ltac:(lia)) as S.
  replace (a + (k - a)) with k in S by lia.
  apply S. pose proof (pow_pos2 b (k - a) Hb ltac:(lia)).
  pose proof (sden_pos b d a Hb Hd). nia.
Qed.

Lemma finite_of_mantissa (s : bool) (m e : Z) :
  0 < m -> e <= 971 ->
  match m with
  | Z.pos p => if 971 <? e then S754_infinity s else S754_finite s p e
  | _ => S754_zero s
  end = S754_finite s (Z.to_pos m) e.
Proof.
  intros Hm He. destruct m; try lia.
  destruct (Z.ltb_spec 971 e); [lia | reflexivity].
Qed.

(** A ratio within half a unit in the last place of [m * 2 ^ e] (a
    quarter, below a power of two) is read as [m * 2 ^ e]. *)
Lemma round_ratio_near (s : bool) (n d m e : Z) :
  0 < n -> 0 < d -> canonical64 m e ->
  2 * Z.abs (snum 2 n e - m * sden 2 d e) < sden 2 d e ->
  (m = 2 ^ 52 -> 4 * (m * sden 2 d e - snum 2 n e) < sden 2 d e) ->
  round_ratio s n d = S754_finite s (Z.to_pos m) e.
Proof.
  intros Hn Hd C A Q.
  pose proof (floor_log2_spec n d Hn Hd) as [L U].
  unfold round_ratio.
  set (F := floor_log2 n d) in *.
  pose proof (snum_pos 2 n e ltac:(lia) Hn) as Hx.
  pose proof (sden_pos 2 d e ltac:(lia) Hd) as Hy.
  assert (P53 : 2 ^ 53 = 9007199254740992) by reflexivity.
  assert (P52 : 2 ^ 52 = 4503599627370496) by reflexivity.
  assert (P51 : 2 ^ 51 = 2251799813685248) by reflexivity.
  assert (Mb : 0 < m < 2 ^ 53) by (destruct C; lia).
  assert (Ee : e <= 971) by (destruct C; lia).
  (* F <= e + 52 *)
  assert (F1 : F <= e + 52).
  { apply Z.nlt_ge. intros G.
    pose proof (scaled_ge_shift1 2 n d e (F - e)
                  ltac:(lia) Hn Hd ltac:(lia)) as S.
    replace (e + (F - e)) with F in S by lia.
    apply S in L.
    pose proof (Z.pow_le_mono_r 2 53 (F - e) ltac:(lia) ltac:(lia)).
    set (x := snum 2 n e) in *. set (y := sden 2 d e) in *. nia. }
  assert (Same : Z.max (F - 52) (-1074) = e ->
                 round_half_even (n * up 2 (- Z.max (F - 52) (-1074)))
                   (d * up 2 (Z.max (F - 52) (-1074))) = m).
  { intros ->. apply round_half_even_unique; assumption. }
  destruct C as [[M E] | [M E]].
  - (* normal *)
    assert (F2 : e + 51 <= F).
    { apply Z.nlt_ge. intros G.
      pose proof (scaled_lt_mono 2 n d (F + 1) (e + 51)
                    ltac:(lia) Hn Hd ltac:(lia) U) as U'.
      apply (scaled_lt_shift1 2 n d e 51 ltac:(lia) Hn Hd ltac:(lia)) in U'.
      set (x := snum 2 n e) in *. set (y := sden 2 d e) in *. nia. }
    assert (F3 : F = e + 52 \/ F = e + 51) by lia.
    destruct F3 as [F3 | F3].
    + rewrite Same by lia.
      replace (Z.max (F - 52) (-1074)) with e by lia.
      destruct (Z.eqb_spec m (2 ^ 53)); [lia |].
      apply finite_of_mantissa; lia.
    + assert (X : snum 2 n e < 2 ^ 52 * sden 2 d e).
      { replace (F + 1) with (e + 52) in U by lia.
        apply (scaled_lt_shift1 2 n d e 52 ltac:(lia) Hn Hd ltac:(lia)) in U.
        lia. }
      assert (M52 : m = 2 ^ 52).
      { set (x := snum 2 n e) in *. set (y := sden 2 d e) in *. nia. }
      specialize (Q M52).
      destruct (Z.eq_dec e (-1074)) as [E0 | E0].
      * rewrite Same by lia.
        replace (Z.max (F - 52) (-1074)) with e by lia.
        destruct (Z.eqb_spec m (2 ^ 53)); [lia |].
        apply finite_of_mantissa; lia.
      * replace (Z.max (F - 52) (-1074)) with (e - 1) by lia.
        fold (snum 2 n (e - 1)) (sden 2 d (e - 1)).
        pose proof (scaled_shift 2 n d (e - 1) 1 ltac:(lia) ltac:(lia)) as S.
        replace (e - 1 + 1) with e in S by lia.
        pose proof (sden_pos 2 d (e - 1) ltac:(lia) Hd) as Hy'.
        rewrite (round_half_even_unique _ _ (2 ^ 53)).
        -- rewrite Z.eqb_refl. replace (e - 1 + 1) with e by lia.
           subst m. apply finite_of_mantissa; lia.
        -- assumption.
        -- set (x := snum 2 n e) in *. set (y := sden 2 d e) in *.
           set (x' := snum 2 n (e - 1)) in *.
           set (y' := sden 2 d (e - 1)) in *.
           change (2 ^ 1) with 2 in S. subst m.
           assert (x' < 2 ^ 53 * y') by nia.
           rewrite Z.abs_neq by lia.
           apply Z.mul_lt_mono_pos_r with (p := y); [assumption |].
           replace (2 * - (x' - 2 ^ 53 * y') * y)
             with (2 * (2 ^ 53 * y' * y) - 2 * (x' * y)) by ring.
           rewrite S. nia.
  - (* subnormal *)
    rewrite Same by lia.
    replace (Z.max (F - 52) (-1074)) with e by lia.
    destruct (Z.eqb_spec m (2 ^ 53)); [lia |].
    apply finite_of_mantissa; lia.
Qed.


Lemma digits2_pos_bounds (m : positive) :
  2 ^ (Z.pos (digits2_pos m) - 1) <= Z.pos m < 2 ^ Z.pos (digits2_pos m).
Proof.
  induction m as [p IH | p IH |]; simpl digits2_pos.
  - rewrite Pos2Z.inj_succ.
    replace (Z.succ (Z.pos (digits2_pos p)) - 1)
      with (Z.succ (Z.pos (digits2_pos p) - 1)) by lia.
    rewrite !Z.pow_succ_r by lia. lia.
  - rewrite Pos2Z.inj_succ.
    replace (Z.succ (Z.pos (digits2_pos p)) - 1)
      with (Z.succ (Z.pos (digits2_pos p) - 1)) by lia.
    rewrite !Z.pow_succ_r by lia. lia.
  - simpl. lia.
Qed.

Lemma bounded_canonical64 (m : positive) (e : Z) :
  bounded 53 1024 m e = true -> canonical64 (Z.pos m) e.
Proof.
  unfold bounded, canonical_mantissa, fexp, emin. intros H.
  apply andb_prop in H as [C E].
  apply Z.eqb_eq in C. apply Z.leb_le in E.
  pose proof (digits2_pos_bounds m) as [L U].
  set (k := Z.pos (digits2_pos m)) in *.
  assert (0 < k) by (unfold k; lia).
  destruct (Z.max_spec (k + e - 53) (3 - 1024 - 53)) as [[A B] | [A B]];
    rewrite B in C.
  - right. split; [| lia]. split; [lia |].
    pose proof (Z.pow_le_mono_r 2 k 52 ltac:(lia) ltac:(lia)). lia.
  - left. assert (k = 53) by lia. subst k.
    replace (Z.pos (digits2_pos m)) with 53 in * by lia.
    change (53 - 1) with 52 in L. lia.
Qed.

Lemma ndigits_aux_spec (fuel : nat) :
  forall n, 1 <= n < 2 ^ Z.of_nat fuel ->
  1 <= ndigits_aux fuel n
  /\ 10 ^ (ndigits_aux fuel n - 1) <= n < 10 ^ ndigits_aux fuel n.
Proof.
  induction fuel as [| fuel IH]; intros n H.
  - simpl in H. lia.
  - cbn [ndigits_aux]. destruct (Z.ltb_spec n 10) as [T | T].
    + change (1 - 1) with 0. rewrite Z.pow_0_r, Z.pow_1_r. lia.
    + assert (B : 1 <= n / 10 < 2 ^ Z.of_nat fuel).
      { rewrite Nat2Z.inj_succ, Z.pow_succ_r in H by lia.
        pose proof (div_bounds n 10 ltac:(lia)). lia. }
      destruct (IH _ B) as (K & L & U).
      set (k := ndigits_aux fuel (n / 10)) in *.
      split; [lia |].
      replace (1 + k - 1) with (Z.succ (k - 1)) by lia.
      replace (1 + k) with (Z.succ k) by lia.
      rewrite !Z.pow_succ_r by lia.
      pose proof (div_bounds n 10 ltac:(lia)). lia.
Qed.

Lemma log2_fuel (n : Z) : 1 <= n -> n < 2 ^ Z.of_nat (S (Z.to_nat (Z.log2 n))).
Proof.
  intros H. pose proof (Z.log2_spec n ltac:(lia)) as [_ U].
  pose proof (Z.log2_nonneg n).
  rewrite Nat2Z.inj_succ, Z2Nat.id by lia. exact U.
Qed.

Lemma ndigits_spec (n : Z) :
  1 <= n -> 1 <= ndigits n /\ 10 ^ (ndigits n - 1) <= n < 10 ^ ndigits n.
Proof.
  intros H. apply ndigits_aux_spec. split; [assumption |].
  now apply log2_fuel.
Qed.

(** [10 ^ (decpt - 1) <= n / d]. *)
Lemma decpt_of_lower (n d : Z) :
  0 < n -> 0 < d ->
  sden 10 d (decpt_of n d - 1) <= snum 10 n (decpt_of n d - 1).
Proof.
  intros Hn Hd. unfold decpt_of, sden, snum.
  destruct (Z.leb_spec d n) as [C | C].
  - pose proof (div_bounds n d Hd) as B.
    assert (Q : 1 <= n / d) by nia.
    destruct (ndigits_spec _ Q) as (K & L & _).
    set (k := ndigits (n / d)) in *.
    rewrite up_nonneg, up_nonpos by lia. nia.
  - pose proof (div_bounds (d - 1) n Hn) as B.
    assert (Q : 1 <= (d - 1) / n) by nia.
    destruct (ndigits_spec _ Q) as (K & _ & U).
    set (k := ndigits ((d - 1) / n)) in *.
    rewrite up_nonpos, up_nonneg by lia.
    replace (- (1 - k - 1)) with k by lia. nia.
Qed.

(** Seventeen digits are enough: the nearest decimal with 17 digits
    reads back. *)
Lemma nearest17_reads_back (m : positive) (e : Z) :
  bounded 53 1024 m e = true ->
  let '(c, q) := nearest17 m e in
  0 < c /\ float_of_decimal false c q = S754_finite false m e.
Proof.
  intros Bd. apply bounded_canonical64 in Bd as C.
  unfold nearest17, ratio_of, decimals_around.
  set (A := up 2 e). set (B := up 2 (- e)).
  set (n := Z.pos m * A).
  set (q := decpt_of n B - 17).
  set (P := up 10 q). set (Q := up 10 (- q)).
  set (c := round_half_even (n * Q) (B * P)).
  assert (HA : 0 < A) by (apply up_pos; lia).
  assert (HB : 0 < B) by (apply up_pos; lia).
  assert (HP : 0 < P) by (apply up_pos; lia).
  assert (HQ : 0 < Q) by (apply up_pos; lia).
  assert (Hn : 0 < n) by (unfold n; nia).
  assert (Hu : 0 < B * P) by nia.
  assert (Hv : 0 < A * Q) by nia.
  pose proof (round_half_even_near (n * Q) (B * P) Hu) as N. fold c in N.
  pose proof (decpt_of_lower n B Hn HB) as D.
  replace (decpt_of n B - 1) with (q + 16) in D by (unfold q; lia).
  apply (scaled_ge_shift1 10 n B q 16 ltac:(lia) Hn HB ltac:(lia)) in D.
  unfold sden, snum in D. fold P Q in D.
  assert (P16 : 10 ^ 16 = 10000000000000000) by reflexivity.
  assert (P53 : 2 ^ 53 = 9007199254740992) by reflexivity.
  assert (P52 : 2 ^ 52 = 4503599627370496) by reflexivity.
  assert (Mb : 0 < Z.pos m < 2 ^ 53) by (destruct C; lia).
  set (u := B * P) in *. set (v := A * Q) in *.
  assert (T : n * Q = Z.pos m * v) by (unfold n, v; ring).
  rewrite T in N.
  assert (D' : 10 ^ 16 * u <= Z.pos m * v).
  { rewrite <- T. exact D. }
  clear D T.
  assert (UV : u < v) by nia.
  assert (Hc : 0 < c).
  { apply Z.nle_gt. intros Hc. assert (c * u <= 0) by nia. lia. }
  split; [assumption |].
  unfold float_of_decimal. destruct (Z.leb_spec c 0); [lia |].
  fold P Q.
  change (S754_finite false m e)
    with (S754_finite false (Z.to_pos (Z.pos m)) e).
  assert (W : 2 * Z.abs (c * u - Z.pos m * v) < v) by lia.
  apply round_ratio_near.
  - nia.
  - assumption.
  - assumption.
  - unfold snum, sden. fold A B.
    replace (c * P * B) with (c * u) by (unfold u; ring).
    replace (Q * A) with v by (unfold v; ring).
    replace (Z.pos m * v) with (Z.pos m * v) by ring. exact W.
  - intros M. unfold snum, sden. fold A B.
    replace (c * P * B) with (c * u) by (unfold u; ring).
    replace (Q * A) with v by (unfold v; ring).
    rewrite M in *. lia.
Qed.


End Rounding.

(** * Digits and their values *)

Section Digits.

Lemma append_assoc (a b c : string) : (a ++ b) ++ c = a ++ (b ++ c).
Proof. induction a as [| x a IH]; simpl; congruence. Qed.

Lemma append_nil_r (a : string) : a ++ "" = a.
Proof. induction a as [| x a IH]; simpl; congruence. Qed.

Lemma length_append (a b : string) :
  String.length (a ++ b) = (String.length a + String.length b)%nat.
Proof. induction a as [| x a IH]; simpl; congruence. Qed.

Lemma zlength_append (a b : string) : zlength (a ++ b) = zlength a + zlength b.
Proof. unfold zlength. rewrite length_append. lia. Qed.

Lemma all_digits_append (a b : string) :
  all_digits (a ++ b) = all_digits a && all_digits b.
Proof.
  induction a as [| x a IH]; simpl; [reflexivity |].
  rewrite IH. now rewrite andb_assoc.
Qed.

Lemma digit_of_ascii_of_digit (d : Z) :
  0 <= d < 10 ->
  is_digit (ascii_of_digit d) = true
  /\ digit_of_ascii (ascii_of_digit d) = d.
Proof.
  intros H.
  assert (C : d = 0 \/ d = 1 \/ d = 2 \/ d = 3 \/ d = 4 \/ d = 5 \/ d = 6
              \/ d = 7 \/ d = 8 \/ d = 9) by lia.
  repeat (destruct C as [-> | C]; [split; reflexivity |]).
  subst d. split; reflexivity.
Qed.

Lemma digits_value_append (a : Z) (s t : string) :
  digits_value a (s ++ t) = digits_value (digits_value a s) t.
Proof. revert a. induction s as [| x s IH]; intros a; simpl; auto. Qed.

Lemma digits_value_acc (a : Z) (s : string) :
  digits_value a s = a * 10 ^ zlength s + digits_value 0 s.
Proof.
  revert a. induction s as [| x s IH]; intros a.
  - simpl. unfold zlength. simpl. lia.
  - cbn [digits_value]. rewrite (IH (10 * a + digit_of_ascii x)).
    rewrite (IH (10 * 0 + digit_of_ascii x)).
    unfold zlength. simpl String.length. rewrite Nat2Z.inj_succ.
    rewrite Z.pow_succ_r by lia. ring.
Qed.

Lemma digits_value_zeros (a : Z) (k : nat) :
  digits_value a (zeros k) = a * 10 ^ Z.of_nat k.
Proof.
  revert a. induction k as [| k IH]; intros a.
  - simpl. lia.
  - cbn [zeros digits_value]. rewrite IH.
    change (digit_of_ascii "0") with 0.
    rewrite Nat2Z.inj_succ, Z.pow_succ_r by lia. ring.
Qed.

Lemma all_digits_zeros (k : nat) : all_digits (zeros k) = true.
Proof. induction k; simpl; auto. Qed.

Lemma length_zeros (k : nat) : String.length (zeros k) = k.
Proof. induction k; simpl; auto. Qed.

Lemma digits_value_nonneg (s : string) (a : Z) :
  all_digits s = true -> 0 <= a -> 0 <= digits_value a s.
Proof.
  revert a. induction s as [| x s IH]; intros a D A;
    cbn [all_digits digits_value] in *; [lia |].
  apply andb_prop in D as [Dx Ds]. apply IH; [assumption |].
  unfold is_digit in Dx. apply andb_prop in Dx as [L U].
  apply Nat.leb_le in L. unfold digit_of_ascii. lia.
Qed.

(** The digits written for a number. *)
Lemma digits_of_aux_acc (fuel : nat) :
  forall n acc,
  digits_of_aux fuel n acc = digits_of_aux fuel n "" ++ acc.
Proof.
  induction fuel as [| fuel IH]; intros n acc; [reflexivity |].
  cbn [digits_of_aux]. destruct (n <? 10); [reflexivity |].
  rewrite IH, (IH _ (String _ "")), append_assoc. reflexivity.
Qed.

Lemma digits_of_aux_spec (fuel : nat) :
  forall n, 0 <= n < 2 ^ Z.of_nat fuel -> (0 < fuel)%nat ->
  let ds := digits_of_aux fuel n "" in
  all_digits ds = true
  /\ digits_value 0 ds = n
  /\ (exists c r, ds = String c r
                  /\ (n = 0 -> r = "" /\ c = "0"%char)
                  /\ (0 < n -> c <> "0"%char)).
Proof.
  induction fuel as [| fuel IH]; intros n H F; [lia |].
  cbn [digits_of_aux]. destruct (Z.ltb_spec n 10) as [T | T].
    + destruct (digit_of_ascii_of_digit (n mod 10)) as [D V].
      { apply Z.mod_pos_bound. lia. }
      rewrite Z.mod_small in * by lia.
      cbn [all_digits digits_value]. rewrite D, V.
      repeat split; try reflexivity; try lia.
      exists (ascii_of_digit n), "". repeat split; intros; subst; try reflexivity.
      assert (C : n = 1 \/ n = 2 \/ n = 3 \/ n = 4 \/ n = 5 \/ n = 6
                  \/ n = 7 \/ n = 8 \/ n = 9) by lia.
      repeat (destruct C as [-> | C]; [discriminate |]). subst. discriminate.
    + rewrite digits_of_aux_acc.
      assert (B : 0 <= n / 10 < 2 ^ Z.of_nat fuel).
      { rewrite Nat2Z.inj_succ, Z.pow_succ_r in H by lia.
        pose proof (div_bounds n 10 ltac:(lia)). lia. }
      assert (F' : (0 < fuel)%nat).
      { destruct fuel; [simpl in B; lia | lia]. }
      destruct (IH _ B F') as (D & V & c & r & E & _ & NZ).
      destruct (digit_of_ascii_of_digit (n mod 10)) as [D' V'].
      { apply Z.mod_pos_bound. lia. }
      set (ds := digits_of_aux fuel (n / 10) "") in *.
      rewrite all_digits_append, digits_value_append, D, V.
      cbn [all_digits digits_value]. rewrite D', V'.
      repeat split.
      * pose proof (Z.div_mod n 10 ltac:(lia)). lia.
      * exists c, (r ++ String (ascii_of_digit (n mod 10)) "").
        rewrite E. repeat split; try reflexivity; try lia.
        intros _. apply NZ. pose proof (div_bounds n 10 ltac:(lia)). lia.
Qed.

Lemma digits_of_spec (n : Z) :
  0 <= n ->
  all_digits (digits_of n) = true
  /\ digits_value 0 (digits_of n) = n
  /\ (exists c r, digits_of n = String c r
                  /\ (n = 0 -> r = "" /\ c = "0"%char)
                  /\ (0 < n -> c <> "0"%char)).
Proof.
  intros H. apply digits_of_aux_spec; [| lia]. split; [assumption |].
  destruct (Z.eq_dec n 0) as [-> | N]; [reflexivity |].
  apply log2_fuel. lia.
Qed.

Lemma span_digits_append (ds rest : string) :
  all_digits ds = true -> no_digit_ahead rest ->
  span_digits (ds ++ rest) = (ds, rest).
Proof.
  intros D R. induction ds as [| c ds IH];
    cbn [append span_digits all_digits] in *.
  - destruct rest as [| c r]; [reflexivity |].
    cbn [no_digit_ahead span_digits] in *. now rewrite R.
  - apply andb_prop in D as [Dc Ds]. rewrite Dc, (IH Ds). reflexivity.
Qed.

(** Dropping the trailing zeros. *)
Lemma strip_trailing_zeros_spec (s : string) :
  exists k, s = strip_trailing_zeros s ++ zeros k.
Proof.
  induction s as [| c s [k IH]].
  - exists 0%nat. reflexivity.
  - cbn [strip_trailing_zeros].
    destruct (strip_trailing_zeros s) as [| c' r'] eqn:E.
    + destruct (Ascii.eqb_spec c "0") as [-> | N].
      * exists (S k). simpl in *. now rewrite <- IH.
      * exists k. simpl in *. now rewrite <- IH.
    + exists k. simpl in *. now rewrite <- IH.
Qed.

Lemma strip_trailing_zeros_head (c : ascii) (r : string) :
  c <> "0"%char ->
  exists r', strip_trailing_zeros (String c r) = String c r'.
Proof.
  intros N. cbn [strip_trailing_zeros].
  destruct (strip_trailing_zeros r) as [| c' r'].
  - destruct (Ascii.eqb_spec c "0"); [contradiction |]. now exists "".
  - now exists (String c' r').
Qed.

Lemma take_drop (n : nat) (s : string) : take n s ++ drop n s = s.
Proof.
  revert s. induction n as [| n IH]; intros s.
  - destruct s; reflexivity.
  - destruct s as [| c s]; [reflexivity |]. simpl. now rewrite IH.
Qed.

Lemma length_take (n : nat) (s : string) :
  (n <= String.length s)%nat -> String.length (take n s) = n.
Proof.
  revert s. induction n as [| n IH]; intros s H.
  - destruct s; reflexivity.
  - destruct s as [| c s]; simpl in *; [lia |]. rewrite IH; lia.
Qed.


End Digits.

(** * The texts of numbers *)

Section NumberText.

Lemma number_end_no_digit (s : string) : number_end s -> no_digit_ahead s.
Proof. destruct s; simpl; tauto. Qed.

Lemma match_integer_text (neg : bool) (I rest : string) :
  good_int I -> no_digit_ahead rest ->
  match_integer (sign_text neg ++ I ++ rest) = Some (neg, I, rest).
Proof.
  intros (D & c & r & -> & Z) R.
  pose proof (span_digits_append (String c r) rest D R) as S.
  cbn [all_digits] in D. apply andb_prop in D as [Dc Dr].
  unfold match_integer.
  destruct (Ascii.eqb_spec c "0") as [-> | N].
  - rewrite (Z eq_refl). destruct neg; reflexivity.
  - destruct neg; cbn [sign_text append];
      [| change (String c r ++ rest) with (String c (r ++ rest)) in * ];
      cbn [append] in *;
      bits c; try discriminate Dc; try (exfalso; apply N; reflexivity);
      rewrite S; reflexivity.
Qed.

Lemma match_frac_text (fr : option string) (rest : string) :
  frac_ok fr -> no_digit_ahead rest ->
  (fr = None -> match rest with
                | String c _ => c <> "."%char
                | EmptyString => True
                end) ->
  match_frac (frac_text fr ++ rest) = (fr, rest).
Proof.
  intros F R N. destruct fr as [F' |].
  - destruct F as [D NE]. destruct F' as [| c r]; [congruence |].
    pose proof (span_digits_append (String c r) rest D R) as S.
    cbn [all_digits] in D. apply andb_prop in D as [Dc Dr].
    cbn [frac_text append] in *. unfold match_frac.
    rewrite Dc, S. reflexivity.
  - cbn [frac_text append]. specialize (N eq_refl).
    destruct rest as [| c r]; [reflexivity |].
    unfold match_frac. bits c; try reflexivity.
    exfalso. apply N. reflexivity.
Qed.

Lemma match_exp_text (ex : option (bool * string)) (rest : string) :
  exp_ok ex -> number_end rest ->
  match_exp (exp_text ex ++ rest) = (ex, rest).
Proof.
  intros X R. destruct ex as [[neg X'] |].
  - destruct X as [D NE]. destruct X' as [| c r]; [congruence |].
    pose proof (span_digits_append (String c r) rest D
                  (number_end_no_digit _ R)) as S.
    cbn [all_digits] in D. apply andb_prop in D as [Dc Dr].
    unfold match_exp.
    destruct neg; cbn [exp_text append] in *; cbn [Ascii.eqb Bool.eqb orb];
      rewrite Dc, S; reflexivity.
  - cbn [exp_text append].
    destruct rest as [| c r]; [reflexivity |].
    destruct R as (_ & _ & E1 & E2).
    unfold match_exp.
    destruct (Ascii.eqb_spec c "e"); [contradiction |].
    destruct (Ascii.eqb_spec c "E"); [contradiction |]. reflexivity.
Qed.

Lemma head_frac_exp (fr : option string) (ex : option (bool * string))
    (rest : string) :
  number_end rest -> no_digit_ahead (frac_text fr ++ exp_text ex ++ rest).
Proof.
  intros R. destruct fr as [F |]; [reflexivity |].
  destruct ex as [[neg X] |]; [reflexivity |].
  now apply number_end_no_digit.
Qed.

(** A text made of a sign, an integer part, a fraction and an exponent is
    matched whole, group by group. *)
Lemma match_number_text (neg : bool) (I : string) (fr : option string)
    (ex : option (bool * string)) (rest : string) :
  good_int I -> frac_ok fr -> exp_ok ex -> number_end rest ->
  match_number (sign_text neg ++ I ++ frac_text fr ++ exp_text ex ++ rest)
  = Some ({| nm_neg := neg; nm_int := I; nm_frac := fr; nm_exp := ex |},
          rest).
Proof.
  intros GI GF GX R. unfold match_number.
  rewrite match_integer_text by (auto using head_frac_exp).
  rewrite match_frac_text; auto.
  - rewrite match_exp_text by assumption. reflexivity.
  - destruct ex as [[n X] |]; [reflexivity |].
    now apply number_end_no_digit.
  - intros _. destruct ex as [[n X] |]; [discriminate |].
    cbn [exp_text append]. destruct rest as [| c r]; [trivial |].
    apply R.
Qed.


Lemma good_int_digits_of (n : Z) : 0 <= n -> good_int (digits_of n).
Proof.
  intros H. destruct (digits_of_spec n H) as (D & _ & c & r & E & Z & NZ).
  split; [assumption |]. exists c, r. split; [assumption |].
  intros C. destruct (Z.eq_dec n 0) as [N | N]; [now apply Z |].
  exfalso. apply NZ; [lia | assumption].
Qed.

(** [int.__repr__] is read back by the scanner of numbers. *)
Lemma int_repr_reads (z : Z) (rest : string) :
  number_end rest ->
  exists mt,
    match_number (int_repr z ++ rest) = Some (mt, rest)
    /\ number_value mt = JInt z.
Proof.
  intros R. unfold int_repr.
  exists {| nm_neg := z <? 0; nm_int := digits_of (Z.abs z);
            nm_frac := None; nm_exp := None |}.
  pose proof (match_number_text (z <? 0) (digits_of (Z.abs z)) None None rest
                (good_int_digits_of _ (Z.abs_nonneg z)) I I R) as M.
  cbn [frac_text exp_text append] in M.
  destruct (digits_of_spec (Z.abs z) (Z.abs_nonneg z)) as (_ & V & _).
  destruct (Z.ltb_spec z 0) as [N | N].
  - replace (- z) with (Z.abs z) by lia. split; [exact M |].
    unfold number_value. cbn [nm_frac nm_exp nm_neg nm_int]. rewrite V. f_equal. lia.
  - replace z with (Z.abs z) at 1 by lia. split; [exact M |].
    unfold number_value. cbn [nm_frac nm_exp nm_neg nm_int]. rewrite V. f_equal. lia.
Qed.

Lemma digit_nonzero (c : ascii) :
  is_digit c = true -> c <> "0"%char -> 1 <= digit_of_ascii c <= 9.
Proof.
  intros D N. bits c; try discriminate D;
    try (exfalso; apply N; reflexivity); cbv; split; discriminate.
Qed.

Lemma digits_value_pos (c : ascii) (r : string) :
  all_digits (String c r) = true -> c <> "0"%char ->
  0 < digits_value 0 (String c r).
Proof.
  intros D N. cbn [all_digits] in D. apply andb_prop in D as [Dc Dr].
  cbn [digits_value]. rewrite digits_value_acc.
  pose proof (digit_nonzero c Dc N).
  pose proof (digits_value_nonneg r 0 Dr ltac:(lia)).
  assert (0 < 10 ^ zlength r) by (apply Z.pow_pos_nonneg; unfold zlength; lia).
  nia.
Qed.

Lemma exp_repr_text (x : Z) :
  exists X,
    "e" ++ exp_repr x = exp_text (Some (x <? 0, X))
    /\ good_digits X /\ digits_value 0 X = Z.abs x.
Proof.
  unfold exp_repr.
  destruct (digits_of_spec (Z.abs x) (Z.abs_nonneg x))
    as (D & V & c & r & E & _).
  destruct (Z.abs x <? 10).
  - exists (String "0" (digits_of (Z.abs x))). repeat split.
    + destruct (x <? 0); reflexivity.
    + cbn [all_digits]. now rewrite D.
    + discriminate.
    + cbn [digits_value]. exact V.
  - exists (digits_of (Z.abs x)). repeat split.
    + destruct (x <? 0); reflexivity.
    + assumption.
    + rewrite E. discriminate.
    + assumption.
Qed.

Lemma signed_abs (x : Z) : (if x <? 0 then - Z.abs x else Z.abs x) = x.
Proof. destruct (Z.ltb_spec x 0); lia. Qed.

Lemma all_digits_take (n : nat) (s : string) :
  all_digits s = true -> all_digits (take n s) = true.
Proof.
  revert s. induction n as [| n IH]; intros s D; destruct s as [| c s];
    try reflexivity.
  cbn [take all_digits] in *. apply andb_prop in D as [Dc Ds].
  now rewrite Dc, IH.
Qed.

Lemma all_digits_drop (n : nat) (s : string) :
  all_digits s = true -> all_digits (drop n s) = true.
Proof.
  revert s. induction n as [| n IH]; intros s D; destruct s as [| c s];
    try assumption; try reflexivity.
  cbn [drop all_digits] in *. apply andb_prop in D as [Dc Ds]. now apply IH.
Qed.

Lemma drop_nonempty (n : nat) (s : string) :
  (n < String.length s)%nat -> drop n s <> "".
Proof.
  revert s. induction n as [| n IH]; intros s H; destruct s as [| c s];
    simpl in *; try lia; try discriminate.
  apply IH. lia.
Qed.

(** The value that a matched number with a fraction or an exponent
    stands for. *)
Lemma number_value_float (neg : bool) (I : string) (fr : option string)
    (ex : option (bool * string)) :
  fr <> None \/ ex <> None ->
  number_value {| nm_neg := neg; nm_int := I; nm_frac := fr; nm_exp := ex |}
  = JFloat
      (float_of_decimal neg
         (digits_value 0
            (I ++ match fr with Some F => F | None => "" end))
         (match ex with
          | Some (n, X) =>
              if n then - digits_value 0 X else digits_value 0 X
          | None => 0
          end - zlength match fr with Some F => F | None => "" end)).
Proof.
  intros H. unfold number_value. cbn [nm_frac nm_exp nm_neg nm_int].
  destruct fr as [F |], ex as [[n X] |]; try reflexivity.
  destruct H; congruence.
Qed.

(** The layout of [repr] is read back as the decimal it lays out. *)
Lemma format_repr_reads (neg : bool) (ds : string) (decpt : Z)
    (rest : string) :
  all_digits ds = true ->
  (exists c r, ds = String c r /\ c <> "0"%char) ->
  number_end rest ->
  exists mt,
    match_number (sign_text neg ++ format_repr ds decpt ++ rest)
    = Some (mt, rest)
    /\ number_value mt
       = JFloat (float_of_decimal neg (digits_value 0 ds)
                   (decpt - zlength ds)).
Proof.
  intros D (c & r & E & N) R.
  assert (P : 0 < digits_value 0 ds) by (subst ds; now apply digits_value_pos).
  assert (GI1 : good_int (String c "")).
  { subst ds. cbn [all_digits] in D. apply andb_prop in D as [Dc _].
    split; [cbn [all_digits]; now rewrite Dc |].
    exists c, "". split; [reflexivity | contradiction]. }
  unfold format_repr.
  destruct ((decpt <=? -4) || (16 <? decpt)) eqn:UE.
  - (* exponent form *)
    destruct (exp_repr_text (decpt - 1)) as (X & EX & GX & VX).
    subst ds. destruct r as [| c' r'].
    + exists {| nm_neg := neg; nm_int := String c ""; nm_frac := None;
                nm_exp := Some (decpt - 1 <? 0, X) |}.
      split.
      * pose proof (match_number_text neg (String c "") None
                      (Some (decpt - 1 <? 0, X)) rest GI1 I GX R) as M.
        rewrite <- EX in M. cbn [frac_text append] in M.
        cbn [append]. exact M.
      * rewrite number_value_float by (right; discriminate).
        rewrite append_nil_r. f_equal. f_equal.
        rewrite VX, signed_abs. unfold zlength. simpl String.length. lia.
    + exists {| nm_neg := neg; nm_int := String c "";
                nm_frac := Some (String c' r');
                nm_exp := Some (decpt - 1 <? 0, X) |}.
      assert (GF : good_digits (String c' r')).
      { cbn [all_digits] in D. apply andb_prop in D as [Dc Dr].
        split; [exact Dr | discriminate]. }
      split.
      * pose proof (match_number_text neg (String c "")
                      (Some (String c' r'))
                      (Some (decpt - 1 <? 0, X)) rest GI1 GF GX R) as M.
        rewrite <- EX in M. cbn [frac_text append] in M.
        cbn [append]. rewrite !append_assoc. cbn [append]. exact M.
      * rewrite number_value_float by (left; discriminate).
        cbn [append]. f_equal. f_equal.
        rewrite VX, signed_abs. unfold zlength. simpl String.length. lia.
  - apply orb_false_elim in UE as [U1 U2].
    apply Z.leb_gt in U1. apply Z.ltb_ge in U2.
    destruct (Z.leb_spec decpt 0) as [Z0 | Z0].
    + (* 0.000ddd *)
      exists {| nm_neg := neg; nm_int := "0";
                nm_frac := Some (zeros (Z.to_nat (- decpt)) ++ ds);
                nm_exp := None |}.
      assert (GF : good_digits (zeros (Z.to_nat (- decpt)) ++ ds)).
      { split; [rewrite all_digits_append, all_digits_zeros; assumption |].
        subst ds. destruct (zeros (Z.to_nat (- decpt))); discriminate. }
      split.
      * assert (G0 : good_int "0").
        { split; [reflexivity |]. exists "0"%char, "". split; reflexivity. }
        pose proof (match_number_text neg "0"
                      (Some (zeros (Z.to_nat (- decpt)) ++ ds)) None rest
                      G0 GF I R) as M.
        cbn [frac_text exp_text append] in M.
        cbn [append]. rewrite !append_assoc. rewrite ?append_assoc in M.
        exact M.
      * rewrite number_value_float by (left; discriminate).
        f_equal. f_equal.
        -- cbn [append digits_value]. change (10 * 0 + digit_of_ascii "0") with 0.
           rewrite digits_value_append, digits_value_zeros. reflexivity.
        -- rewrite zlength_append. unfold zlength at 1.
           rewrite length_zeros. lia.
    + destruct (Z.leb_spec (zlength ds) decpt) as [L | L].
      * (* ddd000.0 *)
        set (j := Z.to_nat (decpt - zlength ds)).
        exists {| nm_neg := neg; nm_int := ds ++ zeros j;
                  nm_frac := Some "0"; nm_exp := None |}.
        split.
        -- assert (GI : good_int (ds ++ zeros j)).
           { split; [rewrite all_digits_append, all_digits_zeros, D;
                     reflexivity |].
             subst ds. exists c, (r ++ zeros j). split; [reflexivity |].
             contradiction. }
           assert (GF : good_digits "0")
             by (split; [reflexivity | discriminate]).
           pose proof (match_number_text neg (ds ++ zeros j) (Some "0") None
                         rest GI GF I R) as M.
           cbn [frac_text exp_text append] in M.
           rewrite !append_assoc in *. cbn [append] in *. exact M.
        -- rewrite number_value_float by (left; discriminate).
           f_equal.
           rewrite !digits_value_append, digits_value_zeros.
           cbn [digits_value]. change (digit_of_ascii "0") with 0.
           replace (10 * (digits_value 0 ds * 10 ^ Z.of_nat j) + 0)
             with (digits_value 0 ds * 10 ^ (Z.of_nat j + 1))
             by (rewrite Z.pow_add_r by lia; ring).
           rewrite float_of_decimal_scale by lia.
           f_equal. unfold j. rewrite Z2Nat.id by lia.
           change (zlength "0") with 1. lia.
      * (* ddd.ddd *)
        set (k := Z.to_nat decpt).
        assert (K : (0 < k < String.length ds)%nat)
          by (unfold k, zlength in *; lia).
        exists {| nm_neg := neg; nm_int := take k ds;
                  nm_frac := Some (drop k ds); nm_exp := None |}.
        split.
        -- assert (GI : good_int (take k ds)).
           { split; [now apply all_digits_take |].
             subst ds. destruct k as [| k']; [lia |].
             exists c, (take k' r). split; [reflexivity | contradiction]. }
           assert (GF : good_digits (drop k ds)).
           { split; [now apply all_digits_drop |].
             apply drop_nonempty. lia. }
           pose proof (match_number_text neg (take k ds) (Some (drop k ds))
                         None rest GI GF I R) as M.
           cbn [frac_text exp_text append] in M.
           rewrite !append_assoc in *. cbn [append] in *. exact M.
        -- rewrite number_value_float by (left; discriminate).
           rewrite take_drop. f_equal. f_equal.
           pose proof (take_drop k ds) as TD.
           apply (f_equal zlength) in TD. rewrite zlength_append in TD.
           unfold zlength at 1 in TD. rewrite length_take in TD by lia.
           assert (Z.of_nat k = decpt) by (unfold k; lia). lia.
Qed.


Lemma float_eqb_eq (x y : spec_float) : float_eqb x y = true -> x = y.
Proof.
  destruct x, y; simpl; try discriminate; intros H.
  - apply Bool.eqb_prop in H. congruence.
  - apply Bool.eqb_prop in H. congruence.
  - reflexivity.
  - apply andb_prop in H as [H He]. apply andb_prop in H as [Hs Hm].
    apply Bool.eqb_prop in Hs. apply Pos.eqb_eq in Hm. apply Z.eqb_eq in He.
    congruence.
Qed.

Lemma float_of_decimal_finite (s : bool) (c q : Z) (m : positive) (e : Z) :
  float_of_decimal false c q = S754_finite false m e ->
  0 < c /\ float_of_decimal s c q = S754_finite s m e.
Proof.
  unfold float_of_decimal. destruct (Z.leb_spec c 0) as [L | L];
    [discriminate |].
  intros H. split; [assumption |]. revert H. unfold round_ratio.
  destruct (_ =? _).
  - destruct (2 ^ 52); try discriminate.
    destruct (971 <? _); try discriminate. congruence.
  - destruct (round_half_even _ _); try discriminate.
    destruct (971 <? _); try discriminate. congruence.
Qed.

Lemma candidate_reads_back (m : positive) (e p c q : Z) :
  candidate m e p = Some (c, q) -> reads_back m e c q = true.
Proof.
  unfold candidate. destruct (ratio_of m e) as [n d].
  destruct (decimals_around n d p) as [[q' lo] near].
  destruct (reads_back m e near q') eqn:A.
  - intros H. injection H as <- <-. exact A.
  - destruct (reads_back m e (2 * lo + 1 - near) q') eqn:B; [| discriminate].
    intros H. injection H as <- <-. exact B.
Qed.

(** The decimal chosen for a finite binary64 value reads back as it. *)
Lemma shortest_decimal_reads_back (m : positive) (e : Z) :
  bounded 53 1024 m e = true ->
  float_of_decimal false (fst (shortest_decimal m e))
    (snd (shortest_decimal m e)) = S754_finite false m e.
Proof.
  intros B. unfold shortest_decimal. generalize 1. generalize 16%nat.
  induction n as [| n IH]; intros p; cbn [shortest_from].
  - pose proof (nearest17_reads_back m e B) as H.
    destruct (nearest17 m e) as [c q]. apply H.
  - destruct (candidate m e p) as [[c q] |] eqn:C; [| apply IH].
    apply candidate_reads_back in C. now apply float_eqb_eq.
Qed.

(** [float.__repr__] of a finite value is read back as this value by the
    scanner of numbers. *)
Lemma float_repr_reads (s : bool) (m : positive) (e : Z) (rest : string) :
  bounded 53 1024 m e = true -> number_end rest ->
  exists mt,
    match_number (float_repr (S754_finite s m e) ++ rest) = Some (mt, rest)
    /\ number_value mt = JFloat (S754_finite s m e).
Proof.
  intros B R. pose proof (shortest_decimal_reads_back m e B) as H.
  cbn [float_repr]. destruct (shortest_decimal m e) as [c q].
  cbn [fst snd] in H.
  destruct (float_of_decimal_finite s c q m e H) as [Hc Hs].
  destruct (digits_of_spec c ltac:(lia)) as (D & V & h & t & E & _ & NZ).
  specialize (NZ Hc).
  destruct (strip_trailing_zeros_spec (digits_of c)) as [k K].
  destruct (strip_trailing_zeros_head h t NZ) as [t' T].
  rewrite E in K at 2. rewrite E.
  set (ds := strip_trailing_zeros (String h t)) in *.
  assert (Dd : all_digits ds = true).
  { rewrite K, all_digits_append in D. now apply andb_prop in D as [D _]. }
  destruct (format_repr_reads s ds (q + zlength (String h t)) rest Dd
              ltac:(exists h, t'; split; assumption) R) as (mt & M & Vm).
  exists mt. split.
  - rewrite append_assoc. exact M.
  - rewrite Vm. f_equal. rewrite <- Hs.
    rewrite <- E, K, zlength_append.
    rewrite <- V, K, digits_value_append, digits_value_zeros.
    assert (P : 0 < digits_value 0 ds) by (rewrite T; apply digits_value_pos;
      [rewrite <- T; assumption | assumption]).
    rewrite float_of_decimal_scale by lia.
    f_equal. unfold zlength at 2. rewrite length_zeros. lia.
Qed.

(** What the scanner does on a text that starts as a number. *)
Lemma scan_once_number (fuel : nat) (s : string) (mt : number_match)
    (rest : string) :
  match_number s = Some (mt, rest) ->
  scan_once (S fuel) s = Some (number_value mt, rest).
Proof.
  intros H. destruct s as [| c r].
  - discriminate H.
  - assert (U : match_number (String c r) = None
                \/ exists other,
                     scan_once (S fuel) (String c r)
                     = match match_number (String c r) with
                       | Some (m, rest) => Some (number_value m, rest)
                       | None => other
                       end).
    { bits c; try (left; reflexivity); right; eexists; reflexivity. }
    destruct U as [U | [other U]]; [congruence |].
    rewrite U, H. reflexivity.
Qed.


End NumberText.

(** * The texts of strings *)

Section Strings.

(** [scanstring] undoes [py_encode_basestring_ascii]. *)
Lemma scanstring_escape_string (s rest : string) :
  scanstring (escape_string s ++ String quote rest) = Some (s, rest).
Proof.
  induction s as [| c s IH].
  - reflexivity.
  - cbn [escape_string]. rewrite append_assoc.
    revert IH. generalize (escape_string s ++ String quote rest).
    intros tail IH.
    bits c;
      match goal with
      | |- context [escape_char ?c] =>
          let e := eval vm_compute in (escape_char c) in
          change (escape_char c) with e
      end;
      simpl; rewrite IH; reflexivity.
Qed.

Lemma scan_once_string (fuel : nat) (s rest : string) :
  scan_once (S fuel) (encode_basestring_ascii s ++ rest)
  = Some (JString s, rest).
Proof.
  unfold encode_basestring_ascii. cbn [append].
  rewrite append_assoc. cbn [append].
  cbn [scan_once]. change (Ascii.eqb quote quote) with true. cbv iota.
  now rewrite scanstring_escape_string.
Qed.

Lemma all_printable_append (a b : string) :
  all_printable (a ++ b) = all_printable a && all_printable b.
Proof.
  induction a as [| x a IH]; cbn [append all_printable]; [reflexivity |].
  now rewrite IH, andb_assoc.
Qed.

Lemma all_printable_escape_string (s : string) :
  all_printable (escape_string s) = true.
Proof.
  induction s as [| c s IH]; [reflexivity |].
  cbn [escape_string]. rewrite all_printable_append, IH, andb_true_r.
  bits c; vm_compute; reflexivity.
Qed.


End Strings.

(** * Arrays, objects and whole values *)

Section Scanner.

Lemma skip_ws_starts_value (s rest : string) :
  starts_value s -> skip_ws (s ++ rest) = s ++ rest.
Proof.
  intros (c & r & -> & W & _). cbn [append skip_ws]. now rewrite W.
Qed.

Lemma match_number_starts (s rest : string) (mt : number_match) :
  match_number (s ++ rest) = Some (mt, rest) -> number_end rest ->
  s <> "" -> starts_value s.
Proof.
  intros H R N. destruct s as [| c r]; [contradiction |].
  exists c, r. split; [reflexivity |].
  cbn [append] in H.
  bits c; try discriminate H; repeat split; discriminate.
Qed.

Lemma floatstr_reads (f : spec_float) (rest : string) (fuel : nat) :
  is_float f = true -> number_end rest ->
  scan_once (S fuel) (floatstr f ++ rest) = Some (JFloat f, rest)
  /\ starts_value (floatstr f).
Proof.
  intros V R. destruct f as [s | s | | s m e].
  - assert (G0 : good_int "0").
    { split; [reflexivity |]. exists "0"%char, "". split; reflexivity. }
    assert (GF : good_digits "0") by (split; [reflexivity | discriminate]).
    pose proof (match_number_text s "0" (Some "0") None rest G0 GF I R) as M.
    split.
    + destruct s; apply (scan_once_number fuel) in M; exact M.
    + destruct s; repeat eexists; try reflexivity; discriminate.
  - split.
    + destruct s; reflexivity.
    + destruct s; repeat eexists; try reflexivity; discriminate.
  - split; [reflexivity |]. repeat eexists; try reflexivity; discriminate.
  - destruct (float_repr_reads s m e rest V R) as (mt & M & Vm).
    cbn [floatstr]. split.
    + rewrite (scan_once_number fuel _ mt rest M), Vm. reflexivity.
    + destruct (float_repr_reads s m e "" V I) as (mt' & M' & _).
      apply (match_number_starts _ "" mt'); [assumption | exact I |].
      intros E. rewrite E in M'. discriminate M'.
Qed.

Lemma int_reads (z : Z) (rest : string) (fuel : nat) :
  number_end rest ->
  scan_once (S fuel) (int_repr z ++ rest) = Some (JInt z, rest)
  /\ starts_value (int_repr z).
Proof.
  intros R. destruct (int_repr_reads z rest R) as (mt & M & Vm). split.
  - rewrite (scan_once_number fuel _ mt rest M), Vm. reflexivity.
  - destruct (int_repr_reads z "" I) as (mt' & M' & _).
    apply (match_number_starts _ "" mt'); [assumption | exact I |].
    intros E. rewrite E in M'. discriminate M'.
Qed.


Lemma starts_value_append (s t : string) :
  starts_value s -> starts_value (s ++ t).
Proof.
  intros (c & r & -> & H). exists c, (r ++ t). split; [reflexivity | exact H].
Qed.

Lemma starts_value_join (sep t : string) (ts : list string) :
  starts_value t -> starts_value (join sep (t :: ts)).
Proof.
  intros H. destruct ts; [exact H |]. cbn [join].
  now apply starts_value_append.
Qed.

Lemma join_cons (sep t : string) (ts : list string) :
  ts <> [] -> join sep (t :: ts) = t ++ sep ++ join sep ts.
Proof. destruct ts; [contradiction | reflexivity]. Qed.

Lemma scan_once_open_array (fuel : nat) (s : string) :
  starts_value s ->
  scan_once (S fuel) (String "[" s) = scan_array fuel s [].
Proof.
  intros (c & r & -> & W & N1 & N2).
  bits c; try discriminate W; try (exfalso; apply N1; reflexivity);
    reflexivity.
Qed.

Lemma scan_once_open_object (fuel : nat) (s : string) :
  starts_value s ->
  scan_once (S fuel) (String "{" s) = scan_object fuel s [].
Proof.
  intros (c & r & -> & W & N1 & N2).
  bits c; try discriminate W; try (exfalso; apply N2; reflexivity);
    reflexivity.
Qed.

Lemma number_end_close_array (rest : string) : number_end (String "]" rest).
Proof. repeat split; discriminate. Qed.

Lemma number_end_close_object (rest : string) : number_end (String "}" rest).
Proof. repeat split; discriminate. Qed.

Lemma number_end_comma (rest : string) : number_end (String "," rest).
Proof. repeat split; discriminate. Qed.

(** The items of an array, up to the closing bracket. *)
Lemma scan_array_items (items : list json) :
  Forall reads items -> forallb well_formed items = true ->
  items <> [] ->
  forall fuel acc rest,
    (items_size items <= fuel)%nat ->
    scan_array fuel (join ", " (map json_dumps items) ++ String "]" rest) acc
    = Some (JArray (acc ++ items), rest).
Proof.
  induction 1 as [| v vs Hv Hvs IH]; intros W NE fuel acc rest F;
    [contradiction |].
  cbn [forallb] in W. apply andb_prop in W as [Wv Wvs].
  destruct (Hv Wv) as [Rv Sv].
  cbn [items_size fold_right] in F. fold (items_size vs) in F.
  destruct fuel as [| fuel]; [lia |].
  destruct vs as [| v2 vs'].
  - cbn [map join scan_array].
    rewrite (Rv fuel (String "]" rest)) by
      (try lia; apply number_end_close_array).
    reflexivity.
  - assert (S2 : starts_value (join ", " (map json_dumps (v2 :: vs')))).
    { cbn [map]. apply starts_value_join.
      inversion Hvs as [| ? ? H2 _]; subst.
      cbn [forallb] in Wvs. apply andb_prop in Wvs as [W2 _].
      apply (H2 W2). }
    specialize (IH Wvs ltac:(discriminate) fuel (acc ++ [v])%list rest
                  ltac:(lia)).
    change (map json_dumps (v :: v2 :: vs'))
      with (json_dumps v :: map json_dumps (v2 :: vs')).
    rewrite join_cons by discriminate.
    revert IH S2. generalize (join ", " (map json_dumps (v2 :: vs'))).
    intros J IH S2.
    rewrite !append_assoc. cbn [append scan_array].
    rewrite (Rv fuel) by (try lia; apply number_end_comma).
    change (skip_ws (String "," (String " " (J ++ String "]" rest))))
      with (String "," (String " " (J ++ String "]" rest))).
    cbv iota beta.
    change (skip_ws (String " " (J ++ String "]" rest)))
      with (skip_ws (J ++ String "]" rest)).
    rewrite skip_ws_starts_value by assumption.
    rewrite IH. now rewrite <- app_assoc.
Qed.


Lemma dict_set_fresh (k : string) (v : json) (acc : list (string * json)) :
  existsb (String.eqb k) (map fst acc) = false ->
  dict_set k v acc = (acc ++ [(k, v)])%list.
Proof.
  induction acc as [| [k' v'] acc IH]; intros H; [reflexivity |].
  cbn [map fst existsb] in H. apply orb_false_elim in H as [H1 H2].
  cbn [dict_set app]. rewrite H1, (IH H2). reflexivity.
Qed.

Lemma distinct_keys_middle (a b : list string) (k : string) :
  distinct_keys (a ++ k :: b) = true -> existsb (String.eqb k) a = false.
Proof.
  induction a as [| x a IH]; intros H; [reflexivity |].
  cbn [app distinct_keys] in H. apply andb_prop in H as [Hx Ha].
  cbn [existsb]. rewrite (IH Ha), orb_false_r.
  apply negb_true_iff in Hx. rewrite existsb_app in Hx.
  apply orb_false_elim in Hx as [_ Hx]. cbn [existsb] in Hx.
  apply orb_false_elim in Hx as [Hx _]. now rewrite String.eqb_sym.
Qed.

Lemma member_text_append (k : string) (v : json) (x : string) :
  member_text (k, v) ++ x
  = String quote
      (escape_string k
       ++ String quote (String ":" (String " " (json_dumps v ++ x)))).
Proof.
  unfold member_text, encode_basestring_ascii. cbn [fst snd append].
  rewrite !append_assoc. reflexivity.
Qed.

Lemma starts_value_member (kv : string * json) : starts_value (member_text kv).
Proof.
  unfold member_text, encode_basestring_ascii. cbn [append].
  repeat eexists; try reflexivity; discriminate.
Qed.

Lemma scan_object_member (fuel : nat) (k : string) (x : string)
    (acc : list (string * json)) :
  scan_object (S fuel)
    (String quote
       (escape_string k ++ String quote (String ":" (String " " x)))) acc
  = match scan_once fuel (skip_ws x) with
    | None => None
    | Some (v, r3) =>
        match skip_ws r3 with
        | String "}" rest => Some (JObject (dict_set k v acc), rest)
        | String "," rest =>
            scan_object fuel (skip_ws rest) (dict_set k v acc)
        | _ => None
        end
    end.
Proof.
  cbn [scan_object]. change (Ascii.eqb quote quote) with true. cbv iota.
  rewrite scanstring_escape_string. reflexivity.
Qed.

(** The members of an object, up to the closing brace. *)
Lemma scan_object_members (members : list (string * json)) :
  Forall (fun kv => reads (snd kv)) members ->
  forallb (fun kv => well_formed (snd kv)) members = true ->
  members <> [] ->
  forall fuel acc rest,
    (members_size members <= fuel)%nat ->
    distinct_keys (map fst (acc ++ members)) = true ->
    scan_object fuel
      (join ", " (map member_text members) ++ String "}" rest) acc
    = Some (JObject (acc ++ members), rest).
Proof.
  induction 1 as [| [k v] ms Hv Hms IH]; intros W NE fuel acc rest F K;
    [contradiction |].
  cbn [forallb snd] in W. apply andb_prop in W as [Wv Wms].
  cbn [snd] in Hv. destruct (Hv Wv) as [Rv Sv].
  cbn [members_size fold_right snd] in F. fold (members_size ms) in F.
  destruct fuel as [| fuel]; [lia |].
  assert (Fk : dict_set k v acc = (acc ++ [(k, v)])%list).
  { apply dict_set_fresh. rewrite map_app in K. cbn [map fst] in K.
    now apply distinct_keys_middle in K. }
  destruct ms as [| m2 ms'].
  - cbn [map join]. rewrite member_text_append, scan_object_member.
    change (skip_ws (String " " ?x)) with (skip_ws x).
    rewrite skip_ws_starts_value by assumption.
    rewrite (Rv fuel) by (try lia; apply number_end_close_object).
    rewrite Fk. reflexivity.
  - specialize (IH Wms ltac:(discriminate) fuel (acc ++ [(k, v)])%list rest
                  ltac:(lia)).
    rewrite <- app_assoc in IH. specialize (IH K).
    change (map member_text ((k, v) :: m2 :: ms'))
      with (member_text (k, v) :: map member_text (m2 :: ms')).
    rewrite join_cons by discriminate.
    assert (S2 : starts_value (join ", " (map member_text (m2 :: ms')))).
    { cbn [map]. apply starts_value_join, starts_value_member. }
    revert IH S2. generalize (join ", " (map member_text (m2 :: ms'))).
    intros J IH S2.
    rewrite !append_assoc, member_text_append, scan_object_member.
    rewrite skip_ws_starts_value by assumption.
    rewrite (Rv fuel) by (try lia; apply number_end_comma).
    cbn [append].
    change (skip_ws (String "," (String " " (J ++ String "}" rest))))
      with (String "," (String " " (J ++ String "}" rest))).
    cbv iota beta.
    change (skip_ws (String " " (J ++ String "}" rest)))
      with (skip_ws (J ++ String "}" rest)).
    rewrite skip_ws_starts_value by assumption.
    rewrite Fk, IH. reflexivity.
Qed.

(** The scanner reads back what the encoder writes. *)
Lemma scan_once_json_dumps (v : json) : reads v.
Proof.
  induction v using json_induction; intros W.
  - split; [| repeat eexists; try reflexivity; discriminate].
    intros [| fuel] rest F R; [cbn in F; lia | reflexivity].
  - split; [| destruct b; repeat eexists; try reflexivity; discriminate].
    intros [| fuel] rest F R; [cbn in F; lia |]. destruct b; reflexivity.
  - split.
    + intros [| fuel] rest F R; [cbn in F; lia |]. now apply int_reads.
    + apply (int_reads z "" 0%nat I).
  - cbn [well_formed] in W. split.
    + intros [| fuel] rest F R; [cbn in F; lia |]. now apply floatstr_reads.
    + now apply (floatstr_reads f "" 0%nat).
  - split.
    + intros [| fuel] rest F R; [cbn in F; lia |]. apply scan_once_string.
    + unfold json_dumps, encode_basestring_ascii.
      repeat eexists; try reflexivity; discriminate.
  - cbn [well_formed] in W. split.
    + intros [| fuel] rest F R; [cbn in F; lia |].
      cbn [json_size] in F. fold (items_size items) in F.
      cbn [json_dumps]. rewrite !append_assoc. cbn [append].
      destruct items as [| v vs]; [reflexivity |].
      rewrite scan_once_open_array.
      * rewrite scan_array_items; auto; [discriminate | lia].
      * apply starts_value_append. cbn [map]. apply starts_value_join.
        inversion H as [| ? ? Hv _]; subst.
        cbn [forallb] in W. apply andb_prop in W as [Wv _]. apply (Hv Wv).
    + cbn [json_dumps append]. repeat eexists; try reflexivity; discriminate.
  - cbn [well_formed] in W. apply andb_prop in W as [W K]. split.
    + intros [| fuel] rest F R; [cbn in F; lia |].
      cbn [json_size] in F. fold (members_size members) in F.
      cbn [json_dumps]. fold member_text.
      change (fun kv : string * json =>
                encode_basestring_ascii (fst kv) ++ ": " ++ json_dumps (snd kv))
        with member_text.
      rewrite !append_assoc. cbn [append].
      destruct members as [| m ms]; [reflexivity |].
      rewrite scan_once_open_object.
      * rewrite scan_object_members; auto; [discriminate | lia].
      * apply starts_value_append. cbn [map].
        apply starts_value_join, starts_value_member.
    + cbn [json_dumps append]. repeat eexists; try reflexivity; discriminate.
Qed.

Lemma items_size_le (items : list json) :
  Forall (fun v => (json_size v <= String.length (json_dumps v))%nat) items ->
  (items_size items
   <= String.length (join ", " (map json_dumps items)) + 1)%nat.
Proof.
  induction 1 as [| v vs Hv Hvs IH]; [cbn; lia |].
  cbn [items_size fold_right]. fold (items_size vs).
  destruct vs as [| v2 vs'].
  - cbn [items_size fold_right map join]. lia.
  - change (map json_dumps (v :: v2 :: vs'))
      with (json_dumps v :: map json_dumps (v2 :: vs')).
    rewrite join_cons by discriminate.
    rewrite !length_append. cbn [String.length]. lia.
Qed.

Lemma members_size_le (members : list (string * json)) :
  Forall (fun kv => (json_size (snd kv)
                     <= String.length (json_dumps (snd kv)))%nat) members ->
  (members_size members
   <= String.length (join ", " (map member_text members)) + 1)%nat.
Proof.
  induction 1 as [| [k v] ms Hv Hms IH]; [cbn; lia |].
  cbn [members_size fold_right snd] in *. fold (members_size ms).
  assert (L : (String.length (json_dumps v)
               <= String.length (member_text (k, v)))%nat).
  { unfold member_text. cbn [fst snd]. rewrite !length_append. lia. }
  destruct ms as [| m2 ms'].
  - cbn [members_size fold_right map join]. lia.
  - change (map member_text ((k, v) :: m2 :: ms'))
      with (member_text (k, v) :: map member_text (m2 :: ms')).
    rewrite join_cons by discriminate.
    rewrite !length_append. cbn [String.length]. lia.
Qed.

Lemma json_size_le_length (v : json) :
  well_formed v = true ->
  (json_size v <= String.length (json_dumps v))%nat.
Proof.
  intros W. destruct (scan_once_json_dumps v W) as [_ (c & r & E & _)].
  revert W c r E.
  induction v using json_induction; intros W c r E;
    try (rewrite E; cbn [json_size String.length]; lia).
  - cbn [json_size json_dumps]. fold (items_size items).
    rewrite !length_append. cbn [String.length].
    pose proof (items_size_le items) as L.
    assert (Forall (fun v => (json_size v
                              <= String.length (json_dumps v))%nat) items).
    { cbn [well_formed] in W. clear E L.
      induction H as [| x xs Hx Hxs IHx]; constructor.
      - cbn [forallb] in W. apply andb_prop in W as [Wx _].
        destruct (scan_once_json_dumps x Wx) as [_ (c' & r' & E' & _)].
        now apply (Hx Wx c' r').
      - apply IHx. cbn [forallb] in W. now apply andb_prop in W as [_ W]. }
    specialize (L H0). lia.
  - cbn [json_size json_dumps]. fold (members_size members).
    change (fun kv : string * json =>
              encode_basestring_ascii (fst kv) ++ ": " ++ json_dumps (snd kv))
      with member_text.
    rewrite !length_append. cbn [String.length].
    pose proof (members_size_le members) as L.
    assert (Forall (fun kv => (json_size (snd kv)
                               <= String.length (json_dumps (snd kv)))%nat)
              members).
    { cbn [well_formed] in W. apply andb_prop in W as [W _]. clear E L.
      induction H as [| x xs Hx Hxs IHx]; constructor.
      - cbn [forallb] in W. apply andb_prop in W as [Wx _].
        destruct (scan_once_json_dumps (snd x) Wx) as [_ (c' & r' & E' & _)].
        now apply (Hx Wx c' r').
      - apply IHx. cbn [forallb] in W. now apply andb_prop in W as [_ W]. }
    specialize (L H0). lia.
Qed.

End Scanner.

(** The whole text of a value is read back, given that its scanner reads
    it and that the text is long enough for the fuel. *)
Ltac loads_after_dumps v W :=
  let R := fresh "R" in
  let S := fresh "S" in
  destruct (scan_once_json_dumps v W) as [R S];
  unfold json_loads;
  rewrite <- (append_nil_r (json_dumps v)) at 2;
  rewrite skip_ws_starts_value by assumption;
  rewrite R;
  [ reflexivity
  | pose proof (json_size_le_length v W); lia
  | exact I ].

(** * Encoding, then decoding *)

Section RoundTrip.

(** X1.  [json.loads] reads back what [json.dumps] writes: for every
    well-formed value [v] whose strings and keys hold code points below
    256 only (the values of [json]), [json.loads (json.dumps v)] is [v]. *)
Theorem json_loads_json_dumps (v : json) :
  well_formed v = true -> json_loads (json_dumps v) = Some v.
Proof.
  intros W. destruct (scan_once_json_dumps v W) as [R S].
  unfold json_loads.
  rewrite <- (append_nil_r (json_dumps v)) at 2.
  rewrite skip_ws_starts_value by assumption.
  rewrite R; [reflexivity | | exact I].
  pose proof (json_size_le_length v W). lia.
Qed.

Lemma json_loads_json_dumps_witness :
  well_formed example_payload = true
  /\ json_loads (json_dumps example_payload) = Some example_payload.
Proof.
  split; [reflexivity |].
  apply (json_loads_json_dumps example_payload). reflexivity.
Defined.

Lemma is_coords_well_formed (v : json) :
  is_coords v = true -> well_formed v = true.
Proof.
  induction v using json_induction; try discriminate; try reflexivity.
  - intros C. exact C.
  - cbn [is_coords well_formed]. intros C.
    induction H as [| x xs Hx Hxs IHx]; [reflexivity |].
    cbn [forallb] in *. apply andb_prop in C as [Cx Cxs].
    now rewrite (Hx Cx), (IHx Cxs).
Qed.

(** C2.  For every coordinates structure (numbers in arrays nested at
    any depth), decoding the text that line 36 stores gives the structure
    back, with its numbers, its nesting and the order of its arrays. *)
Theorem coordinates_round_trip (c : json) :
  is_coords c = true -> json_loads (json_dumps c) = Some c.
Proof.
  intros C. pose proof (is_coords_well_formed c C) as W.
  loads_after_dumps c W.
Qed.

Lemma coordinates_round_trip_witness :
  is_coords example_coordinates = true
  /\ json_loads (json_dumps example_coordinates) = Some example_coordinates.
Proof.
  split; [reflexivity |].
  apply (coordinates_round_trip example_coordinates). reflexivity.
Defined.

(** X10.  The encoder is injective on the well-formed values whose
    strings and keys hold code points below 256 only (the values of
    [json]): two such values that [json.dumps] writes as the same text are
    the same value, so that two different coordinates structures are never
    stored as the same text. *)
Theorem json_dumps_injective (v w : json) :
  well_formed v = true -> well_formed w = true ->
  json_dumps v = json_dumps w -> v = w.
Proof.
  intros Wv Ww E.
  assert (Lv : json_loads (json_dumps v) = Some v)
    by loads_after_dumps v Wv.
  assert (Lw : json_loads (json_dumps w) = Some w)
    by loads_after_dumps w Ww.
  rewrite E in Lv. congruence.
Qed.

Lemma json_dumps_injective_witness :
  well_formed (JArray [JInt 1; JFloat float_1]) = true
  /\ well_formed (JArray [JInt 1; JFloat float_1]) = true
  /\ json_dumps (JArray [JInt 1; JFloat float_1])
     = json_dumps (JArray [JInt 1; JFloat float_1])
  /\ JArray [JInt 1; JFloat float_1] = JArray [JInt 1; JFloat float_1].
Proof.
  split; [reflexivity |]. split; [reflexivity |]. split; [reflexivity |].
  apply (json_dumps_injective (JArray [JInt 1; JFloat float_1])
           (JArray [JInt 1; JFloat float_1])); reflexivity.
Defined.


End RoundTrip.

(** * Create requests on any payload *)

Section Requests.

(** The row that a create request adds: the four fields as they are
    bound, and the text of the coordinates. *)
Lemma create_geofence_bound (data : json) (resp : response) (r : fence) :
  create_geofence data [] = (inr resp, [r]) ->
  bind_param (field "fence_id" data) = inr (fence_id r)
  /\ bind_param (field "name" (field "properties" data)) = inr (name r)
  /\ bind_param (field "notes" (field "properties" data)) = inr (notes r)
  /\ bind_param (field "created_at" data) = inr (created_at r)
  /\ coordinates r
     = SqlText (json_dumps (field "coordinates" (field "shape" data))).
Proof.
  unfold create_geofence, execute_insert, bind, py_get, field.
  destruct data; try discriminate.
  destruct (lookup "properties" members) as [[]|]; try discriminate;
  destruct (lookup "shape" members) as [[]|]; try discriminate;
  cbn [lift raise ret bind_param];
  bind_cases ltac:(try discriminate);
  intros H; injection H as _ <-;
  cbn [fence_id name notes created_at coordinates];
  repeat split; assumption.
Qed.

Lemma create_geofence_accepted (data : json) :
  accepted data = true ->
  exists r, create_geofence data [] = (inr created, [r]).
Proof.
  unfold accepted, bindable, create_geofence, execute_insert, bind, py_get,
    field.
  intros H. destruct data; try discriminate H.
  destruct (lookup "properties" members) as [[]|]; try settle H;
  destruct (lookup "shape" members) as [[]|]; try settle H;
  cbn [is_object andb lift raise ret bind_param] in *;
  bind_cases ltac:(try settle H); settle H.
Qed.

Lemma create_geofence_refused (data : json) :
  accepted data = false ->
  exists e, create_geofence data [] = (inl e, []).
Proof.
  unfold accepted, bindable, create_geofence, execute_insert, bind, py_get,
    field.
  intros H. destruct data; try (eexists; reflexivity).
  destruct (lookup "properties" members) as [[]|]; try settle H;
  destruct (lookup "shape" members) as [[]|]; try settle H;
  cbn [is_object andb lift raise ret bind_param] in *;
  bind_cases ltac:(try settle H); settle H.
Qed.

(** A create request on any table: an accepted payload adds the row that
    it adds to an empty table, another one raises and adds nothing. *)
Lemma create_geofence_outcome (data : json) (s : store) :
  (accepted data = true
   /\ exists r, create_geofence data s = (inr created, (s ++ [r])%list)
                /\ create_geofence data [] = (inr created, [r]))
  \/ (accepted data = false
      /\ exists e, create_geofence data s = (inl e, s)).
Proof.
  rewrite create_geofence_frame.
  destruct (accepted data) eqn:A.
  - left. split; [reflexivity |].
    destruct (create_geofence_accepted data A) as [r H].
    exists r. rewrite H. split; reflexivity.
  - right. split; [reflexivity |].
    destruct (create_geofence_refused data A) as [e H].
    exists e. now rewrite H.
Qed.

Lemma bind_param_null (x : sqlval) : bind_param JNull = inr x -> x = SqlNull.
Proof. cbn [bind_param]. congruence. Qed.

(** C6, as amended.  A create request whose payload is an object without
    [properties] goes through when [data.get("shape", {})] is an object
    and the [fence_id] and the [created_at] of the payload can be bound
    (each is missing, null, a boolean, an integer of 64 bits, a float or a
    string); the [name] and the [notes] of the stored row are then NULL,
    and when the payload has no [shape.coordinates] the stored text is
    that of null. *)
Theorem create_without_properties (d : list (string * json)) (s : store) :
  lookup "properties" d = None ->
  is_object (match lookup "shape" d with
             | Some v => v
             | None => JObject []
             end) = true ->
  bindable (field "fence_id" (JObject d)) = true ->
  bindable (field "created_at" (JObject d)) = true ->
  exists r,
    create_geofence (JObject d) s = (inr created, (s ++ [r])%list)
    /\ name r = SqlNull
    /\ notes r = SqlNull
    /\ (field "coordinates" (field "shape" (JObject d)) = JNull ->
        coordinates r = SqlText "null").
Proof.
  intros P S F T.
  assert (A : accepted (JObject d) = true).
  { unfold accepted. rewrite P, S, F, T. reflexivity. }
  destruct (create_geofence_outcome (JObject d) s)
    as [(_ & r & E & E0) | (A' & _)]; [| congruence].
  exists r. split; [exact E |].
  destruct (create_geofence_bound _ _ _ E0) as (_ & Bn & Bo & _ & Bc).
  unfold field at 2 in Bn. unfold field at 2 in Bo. rewrite P in Bn, Bo.
  repeat split.
  - now apply bind_param_null.
  - now apply bind_param_null.
  - intros C. now rewrite Bc, C.
Qed.

Lemma create_without_properties_witness :
  lookup "properties" [("fence_id", JInt 7)] = None
  /\ is_object (match lookup "shape" [("fence_id", JInt 7)] with
                | Some v => v
                | None => JObject []
                end) = true
  /\ bindable (field "fence_id" (JObject [("fence_id", JInt 7)])) = true
  /\ bindable (field "created_at" (JObject [("fence_id", JInt 7)])) = true
  /\ exists r,
       create_geofence (JObject [("fence_id", JInt 7)]) [example_row]
       = (inr created, ([example_row] ++ [r])%list)
       /\ name r = SqlNull
       /\ notes r = SqlNull
       /\ (field "coordinates"
             (field "shape" (JObject [("fence_id", JInt 7)])) = JNull ->
           coordinates r = SqlText "null").
Proof.
  split; [reflexivity |]. split; [reflexivity |].
  split; [reflexivity |]. split; [reflexivity |].
  apply (create_without_properties [("fence_id", JInt 7)] [example_row]);
    reflexivity.
Defined.

(** C6, as it is stated, fails: each of the payloads [{"shape": null}]
    and [{"fence_id": [1]}] is an object without [properties], and on each
    the handler raises (the first on the [.get] of [None], the second on
    the binding of a list): the client gets the status 500 and no row is
    stored. *)
Lemma create_without_properties_counterexample :
  (lookup "properties" [("shape", JNull)] = None
   /\ create_geofence (JObject [("shape", JNull)]) []
      = (inl AttributeError, [])
   /\ ~ (exists resp s',
           create_geofence (JObject [("shape", JNull)]) [] = (inr resp, s')))
  /\ (lookup "properties" [("fence_id", JArray [JInt 1])] = None
      /\ create_geofence (JObject [("fence_id", JArray [JInt 1])]) []
         = (inl BindingError, [])
      /\ ~ (exists resp s',
              create_geofence (JObject [("fence_id", JArray [JInt 1])]) []
              = (inr resp, s'))).
Proof.
  split; (split; [reflexivity |]); (split; [reflexivity |]);
    intros (resp & s' & H); discriminate H.
Qed.

(** X5.  A payload that is not accepted (it is not an object, or its
    [properties] or its [shape] is present and is not an object, or one of
    [fence_id], [name], [notes] and [created_at] is a list, an object or
    an integer outside of 64 bits) makes the create request raise: the
    client gets the status 500 and the table is left as it is. *)
Theorem create_refused (data : json) (s : store) :
  accepted data = false ->
  exists e,
    create_geofence data s = (inl e, s)
    /\ status_of (fst (create_geofence data s)) = 500.
Proof.
  intros A.
  destruct (create_geofence_outcome data s)
    as [(A' & _) | (_ & e & E)]; [congruence |].
  exists e. rewrite E. split; reflexivity.
Qed.

Lemma create_refused_witness :
  accepted (JObject [("fence_id", JArray [JInt 1])]) = false
  /\ exists e,
       create_geofence (JObject [("fence_id", JArray [JInt 1])])
         [example_row] = (inl e, [example_row])
       /\ status_of
            (fst (create_geofence (JObject [("fence_id", JArray [JInt 1])])
                    [example_row])) = 500.
Proof.
  split; [reflexivity |].
  apply (create_refused (JObject [("fence_id", JArray [JInt 1])])
           [example_row]).
  reflexivity.
Defined.

(** X8.  Whenever a create request returns, the row that it adds holds,
    for its coordinates, the text that [json.dumps] writes for
    [shape.coordinates], whatever this value is (the text of null when
    there is none), and never the structure itself. *)
Theorem created_row_coordinates
    (data : json) (s s' : store) (resp : response) :
  create_geofence data s = (inr resp, s') ->
  exists r,
    s' = (s ++ [r])%list
    /\ coordinates r
       = SqlText (json_dumps (field "coordinates" (field "shape" data))).
Proof.
  intros H.
  destruct (create_geofence_outcome data s)
    as [(_ & r & E & E0) | (_ & e & E)]; rewrite E in H; [| discriminate].
  injection H as _ <-. exists r. split; [reflexivity |].
  now destruct (create_geofence_bound _ _ _ E0) as (_ & _ & _ & _ & Bc).
Qed.

Lemma created_row_coordinates_witness :
  create_geofence example_payload [] = (inr created, [example_row])
  /\ exists r,
       [example_row] = ([] ++ [r])%list
       /\ coordinates r
          = SqlText (json_dumps
                       (field "coordinates" (field "shape" example_payload))).
Proof.
  split; [reflexivity |].
  apply (created_row_coordinates example_payload [] [example_row] created).
  reflexivity.
Defined.

(** X3.  After a create request with a valid payload whose coordinates are
    numbers in nested arrays, the listing holds a record with the
    [fence_id], the [name], the [notes] and the [created_at] of the
    payload and with a text that [json.loads] decodes to its
    coordinates. *)
Theorem stored_coordinates_decode (data : json) (s : store) :
  valid_payload data = true ->
  is_coords (field "coordinates" (field "shape" data)) = true ->
  exists s' items r text,
    create_geofence data s = (inr created, s')
    /\ get_geofences s' = (inr (jsonify (JArray items) 200), s')
    /\ In r items
    /\ field "fence_id" r = field "fence_id" data
    /\ field "name" r = field "name" (field "properties" data)
    /\ field "notes" r = field "notes" (field "properties" data)
    /\ field "created_at" r = field "created_at" data
    /\ field "coordinates" r = JString text
    /\ json_loads text = Some (field "coordinates" (field "shape" data)).
Proof.
  intros V C.
  pose proof (is_coords_well_formed _ C) as W.
  destruct (create_geofence_valid data s V) as (r & Hr & Hd).
  exists (s ++ [r])%list, (map dict_of_row (s ++ [r])), (dict_of_row r),
    (json_dumps (field "coordinates" (field "shape" data))).
  split; [exact Hr |]. split; [apply get_geofences_run |].
  split; [apply in_map, in_or_app; right; now left |].
  rewrite Hd. repeat split.
  loads_after_dumps (field "coordinates" (field "shape" data)) W.
Qed.

Lemma stored_coordinates_decode_witness :
  valid_payload example_payload = true
  /\ is_coords (field "coordinates" (field "shape" example_payload)) = true
  /\ exists s' items r text,
       create_geofence example_payload [] = (inr created, s')
       /\ get_geofences s' = (inr (jsonify (JArray items) 200), s')
       /\ In r items
       /\ field "fence_id" r = field "fence_id" example_payload
       /\ field "name" r = field "name" (field "properties" example_payload)
       /\ field "notes" r
          = field "notes" (field "properties" example_payload)
       /\ field "created_at" r = field "created_at" example_payload
       /\ field "coordinates" r = JString text
       /\ json_loads text
          = Some (field "coordinates" (field "shape" example_payload)).
Proof.
  split; [reflexivity |]. split; [reflexivity |].
  apply (stored_coordinates_decode example_payload []); reflexivity.
Defined.

(** X6.  When the payload has a [shape] that is not an object, the create
    request raises on the extraction of the coordinates: the client gets
    the status 500 and no row is added. *)
Theorem create_with_bad_shape
    (d : list (string * json)) (v : json) (s : store) :
  lookup "shape" d = Some v ->
  is_object v = false ->
  create_geofence (JObject d) s = (inl AttributeError, s)
  /\ status_of (fst (create_geofence (JObject d) s)) = 500.
Proof.
  intros L O.
  assert (E : create_geofence (JObject d) s = (inl AttributeError, s)).
  { unfold create_geofence, bind, py_get. rewrite L.
    destruct (lookup "properties" d) as [[]|]; try reflexivity;
      destruct v; try discriminate O; reflexivity. }
  rewrite E. split; reflexivity.
Qed.

Lemma create_with_bad_shape_witness :
  lookup "shape" [("fence_id", JString "f4"); ("shape", JArray [])]
  = Some (JArray [])
  /\ is_object (JArray []) = false
  /\ create_geofence
       (JObject [("fence_id", JString "f4"); ("shape", JArray [])]) []
     = (inl AttributeError, [])
  /\ status_of
       (fst (create_geofence
               (JObject [("fence_id", JString "f4"); ("shape", JArray [])])
               [])) = 500.
Proof.
  split; [reflexivity |]. split; [reflexivity |].
  apply (create_with_bad_shape
           [("fence_id", JString "f4"); ("shape", JArray [])] (JArray []) []);
    reflexivity.
Defined.

(** X9.  When the body of the request is not an object (a list, a string,
    a number, null), the create request raises on the first [.get]: the
    client gets the status 500 and no row is added. *)
Theorem create_with_non_object (data : json) (s : store) :
  is_object data = false ->
  create_geofence data s = (inl AttributeError, s)
  /\ status_of (fst (create_geofence data s)) = 500.
Proof.
  intros O. destruct data; try discriminate O; split; reflexivity.
Qed.

Lemma create_with_non_object_witness :
  is_object (JArray [example_payload]) = false
  /\ create_geofence (JArray [example_payload]) [example_row]
     = (inl AttributeError, [example_row])
  /\ status_of (fst (create_geofence (JArray [example_payload])
                       [example_row])) = 500.
Proof.
  split; [reflexivity |].
  apply (create_with_non_object (JArray [example_payload]) [example_row]).
  reflexivity.
Defined.

Lemma create_all_refused (ps : list json) (s : store) :
  create_all ps s = create_all (filter accepted ps) s.
Proof.
  revert s. induction ps as [| p ps IH]; intros s; [reflexivity |].
  cbn [create_all filter].
  destruct (create_geofence_outcome p s)
    as [(A & r & E & _) | (A & e & E)]; rewrite A, E; cbn [snd].
  - cbn [create_all]. rewrite E. apply IH.
  - apply IH.
Qed.

Lemma create_all_length (ps : list json) (s : store) :
  forallb accepted ps = true ->
  List.length (create_all ps s) = (List.length s + List.length ps)%nat.
Proof.
  revert s. induction ps as [| p ps IH]; intros s A; cbn [create_all].
  - cbn. lia.
  - cbn [forallb] in A. apply andb_prop in A as [Ap Aps].
    destruct (create_geofence_outcome p s)
      as [(_ & r & E & _) | (A' & _)]; [| congruence].
    rewrite E. cbn [snd]. rewrite (IH _ Aps), length_app. cbn. lia.
Qed.

Lemma forallb_filter_same {A : Type} (f : A -> bool) (l : list A) :
  forallb f (filter f l) = true.
Proof.
  induction l as [| x l IH]; [reflexivity |].
  cbn [filter]. destruct (f x) eqn:E; [| exact IH].
  cbn [forallb]. now rewrite E, IH.
Qed.

(** X7.  In a series of create requests the payloads that are not
    accepted leave no trace: the table after the series is the table after
    its accepted payloads alone, and it has one more row for each of
    them. *)
Theorem refused_creates_leave_no_row (payloads : list json) (s : store) :
  create_all payloads s = create_all (filter accepted payloads) s
  /\ List.length (create_all payloads s)
     = (List.length s + List.length (filter accepted payloads))%nat.
Proof.
  split; [apply create_all_refused |].
  rewrite create_all_refused. apply create_all_length.
  apply forallb_filter_same.
Qed.

End Requests.

(** * The characters of the output *)

Section Output.

Lemma all_digits_printable (s : string) :
  all_digits s = true -> all_printable s = true.
Proof.
  induction s as [| c s IH]; [reflexivity |].
  cbn [all_digits all_printable]. intros H.
  apply andb_prop in H as [Hc Hs]. rewrite (IH Hs), andb_true_r.
  bits c; try discriminate Hc; reflexivity.
Qed.

Lemma all_digits_digits_of_aux (fuel : nat) :
  forall n acc,
  all_digits acc = true -> all_digits (digits_of_aux fuel n acc) = true.
Proof.
  induction fuel as [| fuel IH]; intros n acc A; [exact A |].
  cbn [digits_of_aux].
  assert (D : all_digits (String (ascii_of_digit (n mod 10)) acc) = true).
  { cbn [all_digits]. rewrite A, andb_true_r.
    apply digit_of_ascii_of_digit, Z.mod_pos_bound. lia. }
  destruct (n <? 10); [exact D | now apply IH].
Qed.

Lemma all_digits_digits_of (n : Z) : all_digits (digits_of n) = true.
Proof. now apply all_digits_digits_of_aux. Qed.

Lemma all_digits_strip (s : string) :
  all_digits s = true -> all_digits (strip_trailing_zeros s) = true.
Proof.
  intros H. destruct (strip_trailing_zeros_spec s) as [k K].
  rewrite K, all_digits_append in H. now apply andb_prop in H as [H _].
Qed.

Lemma all_printable_exp_repr (x : Z) : all_printable (exp_repr x) = true.
Proof.
  unfold exp_repr. cbn [all_printable].
  assert (P : all_printable (digits_of (Z.abs x)) = true)
    by apply all_digits_printable, all_digits_digits_of.
  destruct (x <? 0), (Z.abs x <? 10); cbn [all_printable]; rewrite P;
    reflexivity.
Qed.

Lemma all_printable_format_repr (ds : string) (decpt : Z) :
  all_digits ds = true -> all_printable (format_repr ds decpt) = true.
Proof.
  intros D. pose proof (all_digits_printable ds D) as P.
  unfold format_repr. destruct (_ || _).
  - destruct ds as [| c [| c' r]]; [reflexivity | |].
    + cbn [all_printable] in P. apply andb_prop in P as [Pc _].
      cbn [append all_printable].
      now rewrite Pc, all_printable_exp_repr.
    + change (printable c && all_printable (String c' r) = true) in P.
      apply andb_prop in P as [Pc Pr].
      change (String c ("." ++ String c' r ++ "e" ++ exp_repr (decpt - 1)))
        with (String c "." ++ String c' r ++ "e" ++ exp_repr (decpt - 1)).
      rewrite !all_printable_append, Pr, all_printable_exp_repr.
      cbn [all_printable]. rewrite Pc. reflexivity.
  - destruct (decpt <=? 0).
    + cbn [append all_printable].
      rewrite all_printable_append, P, andb_true_r.
      apply all_digits_printable, all_digits_zeros.
    + destruct (zlength ds <=? decpt).
      * rewrite !all_printable_append, P.
        now rewrite (all_digits_printable _ (all_digits_zeros _)).
      * rewrite !all_printable_append.
        rewrite (all_digits_printable _ (all_digits_take _ _ D)).
        cbn [all_printable append].
        now rewrite (all_digits_printable _ (all_digits_drop _ _ D)).
Qed.

Lemma all_printable_floatstr (f : spec_float) :
  all_printable (floatstr f) = true.
Proof.
  destruct f as [s | s | | s m e]; try (destruct s; reflexivity);
    [reflexivity |].
  cbn [floatstr float_repr]. destruct (shortest_decimal m e) as [c q].
  rewrite all_printable_append, all_printable_format_repr.
  - destruct s; reflexivity.
  - apply all_digits_strip, all_digits_digits_of.
Qed.

Lemma all_printable_int_repr (z : Z) : all_printable (int_repr z) = true.
Proof.
  unfold int_repr. destruct (z <? 0); cbn [all_printable];
    now rewrite all_digits_printable by apply all_digits_digits_of.
Qed.

Lemma all_printable_encode (s : string) :
  all_printable (encode_basestring_ascii s) = true.
Proof.
  unfold encode_basestring_ascii. cbn [all_printable].
  now rewrite all_printable_append, all_printable_escape_string.
Qed.

Lemma all_printable_join (parts : list string) :
  Forall (fun p => all_printable p = true) parts ->
  all_printable (join ", " parts) = true.
Proof.
  induction 1 as [| p ps Hp Hps IH]; [reflexivity |].
  destruct ps as [| p2 ps']; [exact Hp |].
  rewrite join_cons by discriminate.
  now rewrite !all_printable_append, Hp, IH.
Qed.

(** X4.  The text that [json.dumps] writes is made of printable ASCII
    characters only, whatever the value: no control character, no line
    break and nothing above [~]. *)
Theorem json_dumps_printable (v : json) :
  all_printable (json_dumps v) = true.
Proof.
  induction v using json_induction.
  - reflexivity.
  - destruct b; reflexivity.
  - apply all_printable_int_repr.
  - apply all_printable_floatstr.
  - apply all_printable_encode.
  - cbn [json_dumps]. rewrite !all_printable_append.
    rewrite all_printable_join; [reflexivity |].
    induction H as [| x xs Hx Hxs IHx]; constructor; assumption.
  - cbn [json_dumps]. rewrite !all_printable_append.
    rewrite all_printable_join; [reflexivity |].
    induction H as [| x xs Hx Hxs IHx]; constructor; [| assumption].
    now rewrite !all_printable_append, all_printable_encode, Hx.
Qed.


End Output.
